(** * adb_graphics.utils: the line-labelling routines [label_line] and [label_lines]

    A shallow embedding of [src/adb_graphics/utils.py], lines 74-175, and the
    properties of the label placement it computes.

    Conventions of the embedding.
    - Array coordinates and angles are IEEE doubles in the program; they are
      idealised as real numbers here ([R]), so [atan2] and [degrees] are the
      mathematical functions and signed zeros are not distinguished.
    - A line segment is a numpy array of shape (n, 2); it is a list of pairs,
      indexed with numpy's rule for integer indices (negative indices count
      from the end, anything outside [-n, n-1] raises IndexError).
    - The keyword dictionary of text-box arguments is a [gmap string Value].
      The three keywords that [label_line] pops with a default ([align],
      [end], [offset]) are optional parameters of the docstring's types.
    - The axes object is explicit state: [ax.text] appends to its texts,
      [ax.get_facecolor] and [ax.transData] read it.  A raised exception
      leaves the texts drawn so far in place. *)

From Stdlib Require Import Reals Lra Lia ZArith.
From stdpp Require Import gmap strings list.

Open Scope Z_scope.

(** ** Python values, exceptions and results *)

Inductive Error : Type :=
| IndexError
| UnboundLocalError
| TypeError
| ValueError
| OverflowError.

Inductive Res (A : Type) : Type :=
| Ok (a : A)
| Raise (e : Error).
Arguments Ok {A} a.
Arguments Raise {A} e.

#[global] Instance Res_ret : MRet Res := fun _ a => Ok a.
#[global] Instance Res_bind : MBind Res := fun _ _ f m =>
  match m with
  | Ok a => f a
  | Raise e => Raise e
  end.

(** Values that travel through the keyword dictionary and into [ax.text]. *)
Inductive Value : Type :=
| VBool (b : bool)
| VInt (z : Z)
| VFloat (r : R)
| VStr (s : string)
| VRGBA (r g b a : R).

(** Elements of the [labels] sequence: Python or numpy scalars. *)
Inductive Scalar : Type :=
| SInt (z : Z)
| SFloat (r : R)
| SNaN
| SInf (negative : bool)
| SNone.

(** ** Elementary numeric functions *)

(** [math.atan2(y, x)] on the reals. *)
Definition atan2 (y x : R) : R :=
  if Rlt_dec 0 x then atan (y / x)
  else if Rlt_dec x 0 then
    if Rle_dec 0 y then (atan (y / x) + PI)%R else (atan (y / x) - PI)%R
  else if Rlt_dec 0 y then (PI / 2)%R
  else if Rlt_dec y 0 then (- (PI / 2))%R
  else 0%R.

(** [math.degrees(x)]. *)
Definition degrees (x : R) : R := (x * (180 / PI))%R.

(** Truncation toward zero, as [int] does on a finite float. *)
Definition trunc (r : R) : Z :=
  if Rle_dec 0 r then Int_part r else - Int_part (- r).

(** [int(v)] for a scalar [v]. *)
Definition int (v : Scalar) : Res Z :=
  match v with
  | SInt z => Ok z
  | SFloat r => Ok (trunc r)
  | SNaN => Raise ValueError
  | SInf _ => Raise OverflowError
  | SNone => Raise TypeError
  end.

(** ** Arrays *)

Definition Point : Type := R * R.
Definition Segment : Type := list Point.

(** [a[i]] for an integer [i] on the first axis of a numpy array (and on a
    Python list): negative indices wrap once, everything else out of range
    raises IndexError. *)
Definition np_index {A : Type} (a : list A) (i : Z) : Res A :=
  let n := Z.of_nat (length a) in
  let j := if decide (i < 0) then i + n else i in
  if decide (0 <= j < n) then
    match a !! Z.to_nat j with
    | Some v => Ok v
    | None => Raise IndexError
    end
  else Raise IndexError.

(** ** The axes object *)

(** [ax.transData]: only [transform_angles] is called; it maps an angle in
    degrees at a data-space point to the angle on screen. *)
Record Transform : Type := {
  transform_angles : R -> Point -> R
}.

(** One call [ax.text(x, y, s, rotation=..., **kwargs)]. *)
Record Text : Type := {
  text_x : R;
  text_y : R;
  text_s : Value;
  text_rotation : R;
  text_kwargs : gmap string Value
}.

Record Axes : Type := {
  transData : Transform;
  facecolor : Value;
  texts : list Text
}.

Definition get_facecolor (ax : Axes) : Value := facecolor ax.

(** Computations on an axes object: state passing, with exceptions. *)
Definition M (A : Type) : Type := Axes -> Axes * Res A.

#[global] Instance M_ret : MRet M := fun _ a ax => (ax, Ok a).
#[global] Instance M_bind : MBind M := fun _ _ f m ax =>
  match m ax with
  | (ax', Ok a) => f a ax'
  | (ax', Raise e) => (ax', Raise e)
  end.

Definition lift {A : Type} (r : Res A) : M A := fun ax => (ax, r).

(** [ax.text(x, y, s, rotation=rot, **kwargs)]: a [rotation] key inside
    [kwargs] is a duplicated keyword argument. *)
Definition draw (t : Text) (ax : Axes) : Axes :=
  {| transData := transData ax;
     facecolor := facecolor ax;
     texts := texts ax ++ [t] |}.

Definition ax_text (x y : R) (s : Value) (rot : R) (kwargs : gmap string Value)
  : M unit := fun ax =>
  match kwargs !! "rotation"%string with
  | Some _ => (ax, Raise TypeError)
  | None =>
      (draw {| text_x := x; text_y := y; text_s := s;
               text_rotation := rot; text_kwargs := kwargs |} ax, Ok tt)
  end.

(** ** [label_line] *)

(** Reading a local variable that no branch has bound. *)
Definition local {A : Type} (v : option A) : Res A :=
  match v with
  | Some a => Ok a
  | None => Raise UnboundLocalError
  end.

(** Lines 101-107: the label location [(x, y)] and the index [ip]; [None]
    when [end] is neither ['bottom'] nor ['top'] and nothing is bound. *)
Definition label_location (segment : Segment) (end_ : string) (offset : Z)
  : Res (option (Point * Z)) :=
  if String.eqb end_ "bottom" then
    xy ← np_index segment (0 + offset);
    Ok (Some (xy, 1 + offset))
  else if String.eqb end_ "top" then
    xy ← np_index segment (-1 - offset);
    Ok (Some (xy, -1 - offset))
  else Ok None.

(** Lines 111-112: the slope vector [(dx, dy)]. *)
Definition slope (segment : Segment) (ip : Z) : Res (R * R) :=
  p1 ← np_index segment ip;
  p0 ← np_index segment (ip - 1);
  q1 ← np_index segment ip;
  q0 ← np_index segment (ip - 1);
  Ok ((p1.1 - p0.1)%R, (q1.2 - q0.2)%R).

(** Line 113: the angle of the slope in data space, in degrees. *)
Definition slope_angle (segment : Segment) (ip : Z) : Res R :=
  d ← slope segment ip;
  Ok (degrees (atan2 d.2 d.1)).

(** Lines 109-117: the angle on screen before the adjustment for the top
    end. *)
Definition screen_angle (tr : Transform) (segment : Segment)
  (loc : option (Point * Z)) : Res R :=
  ip ← local (snd <$> loc);
  ang ← slope_angle segment ip;
  pt ← local (fst <$> loc);
  Ok (transform_angles tr ang pt).

(** Lines 109-123: the rotation handed to [ax.text]. *)
Definition rotation (tr : Transform) (segment : Segment) (align : bool)
  (end_ : string) (loc : option (Point * Z)) : Res R :=
  if align then
    trans_angle ← screen_angle tr segment loc;
    if String.eqb end_ "top" then Ok (trans_angle - 180)%R
    else Ok trans_angle
  else Ok 0%R.

Definition has_key (kwargs : gmap string Value) (k : string) : bool :=
  bool_decide (is_Some (kwargs !! k)).

Definition setdefault (k : string) (v : Value) (kwargs : gmap string Value)
  : gmap string Value :=
  if has_key kwargs k then kwargs else <[k := v]> kwargs.

(** Lines 125-146: the defaults of the text box. *)
Definition text_defaults (bg : Value) (kwargs : gmap string Value)
  : gmap string Value :=
  let kwargs :=
    if negb (has_key kwargs "horizontalalignment") && negb (has_key kwargs "ha")
    then <["ha"%string := VStr "center"]> kwargs else kwargs in
  let kwargs :=
    if negb (has_key kwargs "verticalalignment") && negb (has_key kwargs "va")
    then <["va"%string := VStr "center"]> kwargs else kwargs in
  let kwargs :=
    if has_key kwargs "backgroundcolor" then kwargs
    else <["backgroundcolor"%string := bg]> kwargs in
  let kwargs := setdefault "clip_on" (VBool true) kwargs in
  let kwargs := setdefault "fontsize" (VStr "larger") kwargs in
  let kwargs := setdefault "fontweight" (VStr "bold") kwargs in
  setdefault "zorder" (VFloat 1.5) kwargs.

(** Lines 96-146 of [label_line]: everything up to the call of [ax.text],
    which reads the axes ([transData], [get_facecolor]) and changes nothing.
    The result is the label location, the rotation and the keywords of the
    text box.  [align], [end_] and [offset] are the popped keywords, [None]
    when the caller leaves them out; [kwargs] holds the remaining ones. *)
Definition placement (tr : Transform) (bg : Value) (segment : Segment)
  (align : option bool) (end_ : option string) (offset : option Z)
  (kwargs : gmap string Value) : Res (Point * R * gmap string Value) :=
  let align := default true align in
  let end_ := default "bottom"%string end_ in
  let offset := default 0 offset in
  loc ← label_location segment end_ offset;
  trans_angle ← rotation tr segment align end_ loc;
  let kwargs := text_defaults bg kwargs in
  xy ← local (fst <$> loc);
  Ok (xy, trans_angle, kwargs).

(** [label_line(ax, label, segment, **kwargs)]. *)
Definition label_line (label : Value) (segment : Segment)
  (align : option bool) (end_ : option string) (offset : option Z)
  (kwargs : gmap string Value) : M unit := fun ax =>
  match placement (transData ax) (get_facecolor ax) segment
                  align end_ offset kwargs with
  | Ok (xy, trans_angle, kwargs) => ax_text xy.1 xy.2 label trans_angle kwargs ax
  | Raise e => (ax, Raise e)
  end.

(** ** [label_lines] *)

(** The [LineCollection] of a family of special lines. *)
Record LineCollection : Type := {
  get_segments : list Segment;
  get_color : list Value
}.

(** [enumerate(l)], counting from [i]. *)
Fixpoint enumerate_from {A : Type} (i : nat) (l : list A) : list (nat * A) :=
  match l with
  | [] => []
  | a :: l => (i, a) :: enumerate_from (S i) l
  end.

(** A [for] loop whose body may raise. *)
Fixpoint for_each {A : Type} (body : A -> M unit) (l : list A) : M unit :=
  match l with
  | [] => mret tt
  | a :: l => _ ← body a; for_each body l
  end.

(** Lines 170-171: the colour of the labels defaults to that of the lines. *)
Definition default_color (lines : LineCollection) (kwargs : gmap string Value)
  : Res (gmap string Value) :=
  if has_key kwargs "color" then Ok kwargs
  else
    c ← np_index (get_color lines) 0;
    Ok (<["color"%string := c]> kwargs).

(** Line 74, [def label_line(ax, label, segment, **kwargs)]: a call that
    passes the three positional arguments and, through [**kwargs], a keyword
    of one of their names gives that parameter two values, which is a
    TypeError at the call. *)
Definition names_parameter (kwargs : gmap string Value) : bool :=
  has_key kwargs "ax" || has_key kwargs "label" || has_key kwargs "segment".

(** Lines 174-175: the body of the loop.  [align] is what the caller of
    [label_lines] put under that keyword, if anything: it then meets the
    explicit [align=True] of the call, a duplicated keyword argument.  So
    does a keyword named like a positional parameter of [label_line].  Both
    are found when the call is made, after [int(labels[i])]. *)
Definition label_lines_body (labels : list Scalar) (offset : Z)
  (align : option bool) (end_ : option string) (kwargs : gmap string Value)
  (il : nat * Segment) : M unit :=
  label ← lift (v ← np_index labels (Z.of_nat il.1); int v);
  match align with
  | Some _ => lift (Raise TypeError)
  | None =>
      if names_parameter kwargs then lift (Raise TypeError)
      else label_line (VInt label) il.2 (Some true) end_ (Some offset) kwargs
  end.

(** [label_lines(ax, lines, labels, offset=0, **kwargs)]. *)
Definition label_lines (lines : LineCollection) (labels : list Scalar)
  (offset : Z) (align : option bool) (end_ : option string)
  (kwargs : gmap string Value) : M unit :=
  kwargs ← lift (default_color lines kwargs);
  for_each (label_lines_body labels offset align end_ kwargs)
           (enumerate_from 0 (get_segments lines)).

(** A transform under which device space is data space: angles are left as
    they are. *)
Definition identity : Transform := {| transform_angles := fun ang _ => ang |}.

(** ** The vocabulary of the specification *)

(** The end of the line a label goes to; [label_line] takes it as the
    keyword ['bottom'] or ['top']. *)
Inductive End : Type := START | END.

Definition end_keyword (e : End) : string :=
  match e with
  | START => "bottom"
  | END => "top"
  end.

(** The text that a successful placement hands to [ax.text]. *)
Definition text_of (label : Value) (p : Point * R * gmap string Value) : Text :=
  {| text_x := p.1.1.1; text_y := p.1.1.2; text_s := label;
     text_rotation := p.1.2; text_kwargs := p.2 |}.

(** The slope vector that [label_line] computes for a selector. *)
Definition tangent_used (segment : Segment) (e : End) (offset : Z)
  : Res (R * R) :=
  loc ← label_location segment (end_keyword e) offset;
  ip ← local (snd <$> loc);
  slope segment ip.

(** The angle on screen that [label_line] computes for a selector, before
    the adjustment for the top end. *)
Definition angle_used (tr : Transform) (segment : Segment) (e : End)
  (offset : Z) : Res R :=
  loc ← label_location segment (end_keyword e) offset;
  screen_angle tr segment loc.

(** The tangent pair and the tangent vector in the words of the
    specification: the difference of the points at the first and at the
    second index of the pair. *)
Definition spec_tangent_pair (e : End) (len offset : Z) : Z * Z :=
  match e with
  | START => (offset, offset + 1)
  | END => (len - 1 - offset, len - 2 - offset)
  end.

Definition spec_anchor_index (e : End) (len offset : Z) : Z :=
  match e with
  | START => offset
  | END => len - 1 - offset
  end.

Definition spec_tangent (segment : Segment) (e : End) (offset : Z)
  : Res (R * R) :=
  let pair := spec_tangent_pair e (Z.of_nat (length segment)) offset in
  p ← np_index segment pair.1;
  q ← np_index segment pair.2;
  Ok ((p.1 - q.1)%R, (p.2 - q.2)%R).

(** The failure condition in the words of the specification: the anchor
    index or an index of the tangent pair falls outside [0, len - 1]. *)
Definition spec_index_out_of_range (e : End) (len offset : Z) : Prop :=
  let inside i := 0 <= i <= len - 1 in
  ~ (inside (spec_anchor_index e len offset)
     /\ inside (spec_tangent_pair e len offset).1
     /\ inside (spec_tangent_pair e len offset).2).

(** The index of the label location and the index [ip] of lines 103-107. *)
Definition anchor_index (e : End) (offset : Z) : Z :=
  match e with
  | START => offset
  | END => -1 - offset
  end.

Definition ip_index (e : End) (offset : Z) : Z :=
  match e with
  | START => 1 + offset
  | END => -1 - offset
  end.

(** The rotation that [label_line] hands to [ax.text] for a selector. *)
Definition rotation_used (tr : Transform) (segment : Segment) (align : bool)
  (e : End) (offset : Z) : Res R :=
  loc ← label_location segment (end_keyword e) offset;
  rotation tr segment align (end_keyword e) loc.

(** What one call of [label_line] comes to, as a function of what it reads
    from the axes: the text it draws, or the exception it raises. *)
Definition outcome (tr : Transform) (bg : Value) (label : Value)
  (segment : Segment) (align : option bool) (end_ : option string)
  (offset : option Z) (kwargs : gmap string Value) : Res Text :=
  p ← placement tr bg segment align end_ offset kwargs;
  match kwargs !! "rotation"%string with
  | Some _ => Raise TypeError
  | None => Ok (text_of label p)
  end.

(** The axes after some more texts have been drawn. *)
Definition add_texts (ts : list Text) (ax : Axes) : Axes :=
  {| transData := transData ax;
     facecolor := facecolor ax;
     texts := texts ax ++ ts |}.

Definition run (r : Res Text) (ax : Axes) : Axes * Res unit :=
  match r with
  | Ok t => (draw t ax, Ok tt)
  | Raise e => (ax, Raise e)
  end.

(** What one turn of the loop of [label_lines] comes to, for the [i]-th
    line. *)
Definition step_outcome (tr : Transform) (bg : Value) (labels : list Scalar)
  (offset : Z) (align : option bool) (end_ : option string)
  (kwargs : gmap string Value) (il : nat * Segment) : Res Text :=
  v ← np_index labels (Z.of_nat il.1);
  label ← int v;
  match align with
  | Some _ => Raise TypeError
  | None =>
      if names_parameter kwargs then Raise TypeError
      else outcome tr bg (VInt label) il.2 (Some true) end_ (Some offset)
                   kwargs
  end.

(** What the loop of [label_lines] comes to from the [i]-th line on: the
    texts drawn, in order, and how the loop ends. *)
Fixpoint loop_outcome (tr : Transform) (bg : Value) (labels : list Scalar)
  (offset : Z) (align : option bool) (end_ : option string)
  (kwargs : gmap string Value) (i : nat) (segments : list Segment)
  : list Text * Res unit :=
  match segments with
  | [] => ([], Ok tt)
  | segment :: segments =>
      match step_outcome tr bg labels offset align end_ kwargs (i, segment)
      with
      | Ok t =>
          let rest := loop_outcome tr bg labels offset align end_ kwargs
                                   (S i) segments in
          (t :: rest.1, rest.2)
      | Raise e => ([], Raise e)
      end
  end.

(** ** Data for the worked cases *)

Definition white_axes : Axes :=
  {| transData := identity; facecolor := VStr "white"; texts := [] |}.

(** Axes that already carry a text. *)
Definition used_axes : Axes :=
  draw {| text_x := 3; text_y := 4; text_s := VStr "old";
          text_rotation := 90; text_kwargs := ∅ |} white_axes.

Definition horizontal : Segment := [(0, 0); (1, 0)]%R.
Definition diagonal : Segment := [(0, 0); (1, 1)]%R.
Definition bent : Segment := [(0, 0); (1, 0); (1, 1)]%R.

Definition three_lines : LineCollection :=
  {| get_segments := [diagonal; bent; horizontal];
     get_color := [VStr "tan"] |}.

(** ** Further vocabulary for [label_line] and [label_lines] *)

(** The value that lines 125-146 give a text-box keyword the caller left
    out, if there is one: the alignments only when the caller gave neither
    spelling of the keyword. *)
Definition keyword_default (bg : Value) (kwargs : gmap string Value)
  (k : string) : option Value :=
  if decide (k = "ha"%string) then
    if has_key kwargs "horizontalalignment" then None else Some (VStr "center")
  else if decide (k = "va"%string) then
    if has_key kwargs "verticalalignment" then None else Some (VStr "center")
  else if decide (k = "backgroundcolor"%string) then Some bg
  else if decide (k = "clip_on"%string) then Some (VBool true)
  else if decide (k = "fontsize"%string) then Some (VStr "larger")
  else if decide (k = "fontweight"%string) then Some (VStr "bold")
  else if decide (k = "zorder"%string) then Some (VFloat 1.5)
  else None.

(** ** [fhr_list] (utils.py, lines 16-39) *)

(** The argument of [fhr_list]: the list of integers that argparse makes of
    the forecast hours on the command line, or a bare integer. *)
Inductive FhrArg : Type :=
| ArgList (l : list Z)
| ArgInt (z : Z).

(** The number of elements of [range(start, stop, step)] for a non-zero
    [step]. *)
Definition range_length (start stop step : Z) : Z :=
  if decide (0 < step) then
    if decide (start < stop) then 1 + (stop - 1 - start) / step else 0
  else
    if decide (stop < start) then 1 + (start - 1 - stop) / (- step) else 0.

(** [list(range(start, stop, step))]. *)
Definition py_range (start stop step : Z) : Res (list Z) :=
  if decide (step = 0) then Raise ValueError
  else Ok ((fun k => start + k * step)
             <$> seqZ 0 (range_length start stop step)).

(** [list(range( *args))]: [range] takes one to three arguments. *)
Definition range_star (args : list Z) : Res (list Z) :=
  match args with
  | [stop] => py_range 0 stop 1
  | [start; stop] => py_range start stop 1
  | [start; stop; step] => py_range start stop step
  | _ => Raise TypeError
  end.

Definition fhr_list (args : FhrArg) : Res (list Z) :=
  let args := match args with ArgList l => l | ArgInt z => [z] end in
  let arg_len := length args in
  if bool_decide (arg_len = 2%nat \/ arg_len = 3%nat) then range_star args
  else Ok args.

(** ** Unit conversions (conversions.py) *)

(** A field is a numpy array of numbers; the conversions act on each value
    and keep the shape, so the values are taken in the order of the flat
    view of the array. *)

(** [np.asarray(field) - 273.15] *)
Definition k_to_c (field : list R) : list R :=
  (fun x => x - 273.15)%R <$> field.

(** [(np.asarray(field) - 273.15) * 9/5 + 32] *)
Definition k_to_f (field : list R) : list R :=
  (fun x => (x - 273.15) * 9 / 5 + 32)%R <$> field.

(** [np.asarray(field) / 10.] *)
Definition m_to_dm (field : list R) : list R :=
  (fun x => x / 10)%R <$> field.

(** [np.asarray(field) * 1.9438] *)
Definition ms_to_kt (field : list R) : list R :=
  (fun x => x * 1.9438)%R <$> field.

(** [np.asarray(field) / 100.] *)
Definition pa_to_hpa (field : list R) : list R :=
  (fun x => x / 100)%R <$> field.

(** [np.asarray(field) * -10] *)
Definition vvel_scale (field : list R) : list R :=
  (fun x => x * -10)%R <$> field.

(** [np.asarray(field) / 1E-05] *)
Definition vort_scale (field : list R) : list R :=
  (fun x => x / 1e-5)%R <$> field.

(** ** [Map._get_basemap] (maps.py, lines 88-110) *)

(** The values of the keyword arguments of the map: None, the figure
    axis, numbers, strings, and lists of numbers such as the corners. *)
Inductive PyVal : Type :=
| PNone
| PAx
| PNum (r : R)
| PStr (s : string)
| PList (l : list R).

(** A dict with string keys: an association list without repeated keys, in
    the order of insertion. *)
Abbreviation odict := (list (string * PyVal)).

Fixpoint od_lookup (k : string) (d : odict) : option PyVal :=
  match d with
  | [] => None
  | (k', v) :: d => if String.eqb k k' then Some v else od_lookup k d
  end.

(** [d[k] = v]: a key that is there keeps its place. *)
Fixpoint od_set (k : string) (v : PyVal) (d : odict) : odict :=
  match d with
  | [] => [(k, v)]
  | (k', v') :: d =>
      if String.eqb k k' then (k, v) :: d else (k', v') :: od_set k v d
  end.

(** [d.update(d')] *)
Definition od_update (d d' : odict) : odict :=
  fold_left (fun acc kv => od_set kv.1 kv.2 acc) d' d.

(** What is left of [d] after [d.pop(k, ...)]. *)
Definition od_remove (k : string) (d : odict) : odict :=
  filter (fun kv => kv.1 <> k) d.

(** [v[i]] for a literal index [i]. *)
Definition subscript (v : PyVal) (i : Z) : Res PyVal :=
  match v with
  | PList l => x ← np_index l i; Ok (PNum x)
  | PStr s => c ← np_index (String.list_ascii_of_string s) i;
              Ok (PStr (String c EmptyString))
  | PNone | PAx | PNum _ => Raise TypeError
  end.

(** What [print] writes: a text, or a key and a value formatted by
    [f'{k}: {v}']. *)
Inductive Printed : Type :=
| PrintStr (s : string)
| PrintItem (k : string) (v : PyVal).

(** [Map._get_basemap(self, **get_basemap_kwargs)], with [ax] for
    [self.ax].  The result is what is printed and the keyword arguments of
    the call [Basemap( **basemap_args)]. *)
Definition Map_get_basemap (ax : PyVal) (get_basemap_kwargs : odict)
  : list Printed * Res odict :=
  let basemap_args := [("ax"%string, ax); ("resolution"%string, PStr "l")] in
  let corners := default PNone (od_lookup "corners" get_basemap_kwargs) in
  let get_basemap_kwargs := od_remove "corners" get_basemap_kwargs in
  let with_corners :=
    match corners with
    | PNone => Ok basemap_args
    | _ =>
        llcrnrlat ← subscript corners 0;
        llcrnrlon ← subscript corners 2;
        urcrnrlat ← subscript corners 1;
        urcrnrlon ← subscript corners 3;
        Ok (od_update basemap_args
              [("llcrnrlat"%string, llcrnrlat); ("llcrnrlon"%string, llcrnrlon);
               ("urcrnrlat"%string, urcrnrlat); ("urcrnrlon"%string, urcrnrlon)])
    end in
  match with_corners with
  | Raise e => ([], Raise e)
  | Ok basemap_args =>
      let basemap_args := od_update basemap_args get_basemap_kwargs in
      (PrintStr "BASEMAP ARGS"
         :: ((fun kv => PrintItem kv.1 kv.2) <$> basemap_args),
       Ok basemap_args)
  end.

(** Lines 98-101 as a table: which element of [corners] goes under which
    keyword of [Basemap]. *)
Definition corner_index (k : string) : option Z :=
  if decide (k = "llcrnrlat"%string) then Some 0
  else if decide (k = "llcrnrlon"%string) then Some 2
  else if decide (k = "urcrnrlat"%string) then Some 1
  else if decide (k = "urcrnrlon"%string) then Some 3
  else None.

(** The element of [corners] at a literal index, when there are corners and
    the index is in range. *)
Definition corner_value (corners : PyVal) (i : Z) : option PyVal :=
  match corners with
  | PNone => None
  | _ => match subscript corners i with
         | Ok v => Some v
         | Raise _ => None
         end
  end.

(** ** [DataMap._colorbar] (maps.py, lines 144-166) *)

(** A number of the field specification: a Python int or a float. *)
Inductive Num : Type :=
| NInt (z : Z)
| NFloat (r : R).

Definition num_val (n : Num) : R :=
  match n with
  | NInt z => IZR z
  | NFloat r => r
  end.

(** What [_colorbar] reads of [self.field]: the tick setting and the
    contour levels, a numpy array. *)
Record ShadedField : Type := {
  ticks : Num;
  clevs : list R
}.

(** [np.amin(a)] and [np.amax(a)]: no minimum of an empty array. *)
Definition np_amin (a : list R) : Res R :=
  match a with
  | [] => Raise ValueError
  | x :: a => Ok (foldl Rmin x a)
  end.

Definition np_amax (a : list R) : Res R :=
  match a with
  | [] => Raise ValueError
  | x :: a => Ok (foldl Rmax x a)
  end.

(** [np.arange(start, stop, step)]: ceil((stop - start) / step) values,
    none when that is negative.  numpy takes the quotient in double
    precision; here it is the exact one, so where the quotient is an integer
    or rounds to one the last value can be present in the one and absent in
    the other.  The properties below leave that value open. *)
Definition np_arange (start stop step : R) : list R :=
  (fun i => start + IZR i * step)%R
    <$> seqZ 0 (Zceil ((stop - start) / step)).

(** [a[0:len(a):s]] for a step [s] >= 1, with [skip] elements to pass over
    before the next one is taken. *)
Fixpoint every_nth {A : Type} (skip s : nat) (a : list A) : list A :=
  match a with
  | [] => []
  | x :: a =>
      match skip with
      | O => x :: every_nth (s - 1) s a
      | S skip => every_nth skip s a
      end
  end.

(** [np.rint(x)]: the nearest integer, the even one of two. *)
Definition rint (x : R) : Z :=
  let f := Zfloor x in
  if Rlt_dec (x - IZR f) (1 / 2) then f
  else if Rlt_dec (1 / 2) (x - IZR f) then f + 1
  else if Z.even f then f else f + 1.

(** [np.around(x, 4)] on one value. *)
Definition around4 (x : R) : R := (IZR (rint (x * 10000)) / 10000)%R.

(** Lines 150-156 of [_colorbar]: the ticks before rounding. *)
Definition selected_ticks (field : ShadedField) : Res (list R) :=
  if Rlt_dec 0 (num_val (ticks field)) then
    lo ← np_amin (clevs field);
    hi ← np_amax ((fun x => x + 1)%R <$> clevs field);
    Ok (np_arange lo hi (num_val (ticks field)))
  else if Req_dec_T (num_val (ticks field)) 0 then Ok (clevs field)
  else
    match ticks field with
    | NInt z => Ok (every_nth 0 (Z.to_nat (- z)) (clevs field))
    | NFloat _ => Raise TypeError
    end.

(** Lines 150-157 of [_colorbar]: the ticks handed to [plt.colorbar] and to
    [set_xticklabels]. *)
Definition colorbar_ticks (field : ShadedField) : Res (list R) :=
  match selected_ticks field with
  | Ok selected => Ok (around4 <$> selected)
  | Raise e => Raise e
  end.

(** ** [DataMap._wind_barbs] (maps.py, lines 313-331) *)

(** A two-dimensional numpy array is the list of its rows. *)

(** [np.ones_like(u)] *)
Definition ones_like (u : list (list R)) : list (list R) :=
  (fun row : list R => (fun _ : R => 1%R) <$> row) <$> u.

(** [a[::s] = ...] along one axis, for a step [s] >= 1: every [s]-th
    element is changed by [f], from the first one on, with [skip] elements
    to pass over before the next one is changed. *)
Fixpoint update_every {A : Type} (skip s : nat) (f : A -> A) (a : list A)
  : list A :=
  match a with
  | [] => []
  | x :: a =>
      match skip with
      | O => f x :: update_every (s - 1) s f a
      | S skip => x :: update_every skip s f a
      end
  end.

(** Lines 320-321: [mask = np.ones_like(u)] and [mask[::30, ::35] = 0]. *)
Definition barb_mask (u : list (list R)) : list (list R) :=
  update_every 0 30 (update_every 0 35 (fun _ => 0%R)) (ones_like u).

(** The shape of an array: the lengths of its rows. *)
Definition shape {A : Type} (a : list (list A)) : list nat := length <$> a.

(** [np.ma.masked_array(c, mask=mask)] for a mask of the shape of [c]: a
    value under a non-zero mask entry is masked, [None].  Nothing is said
    here of masks of another shape. *)
Definition masked_array (c mask : list (list R)) : option (list (list (option R))) :=
  if decide (shape c = shape mask) then
    Some (zip_with (zip_with (fun x m => if Req_dec_T m 0 then Some x else None))
                   c mask)
  else None.

(** Lines 320-323 of [_wind_barbs]: the two masked components handed to
    [barbs]. *)
Definition wind_barbs (u v : list (list R))
  : option (list (list (option R)) * list (list (option R))) :=
  let mask := barb_mask u in
  mu ← masked_array u mask;
  mv ← masked_array v mask;
  Some (mu, mv).

(** Whether the element of index [j] is one of every [s]-th from [skip]
    on. *)
Definition on_stride (skip s j : nat) : Prop :=
  (skip <= j)%nat /\ ((j - skip) mod s = 0)%nat.

#[local] Instance on_stride_dec skip s j : Decision (on_stride skip s j).
Proof. unfold on_stride. apply _. Defined.

(** The number of values of a masked array that are not masked. *)
Definition unmasked_count (m : list (list (option R))) : nat :=
  sum_list ((fun row : list (option R) =>
               sum_list ((fun o : option R =>
                           match o with Some _ => 1 | None => 0 end)%nat
                          <$> row))
              <$> m).

(** * Properties *)

(** ** Indexing *)

Section Indexing.
Context {A : Type}.
Implicit Types (a : list A) (i : Z) (v : A).

Lemma np_index_nonneg a i v :
  0 <= i -> a !! Z.to_nat i = Some v -> np_index a i = Ok v.
Proof.
  intros Hi Hv. unfold np_index.
  pose proof (lookup_lt_Some _ _ _ Hv) as Hlt.
  destruct (decide (i < 0)) as [?|_]; [lia|].
  destruct (decide (0 <= i < Z.of_nat (length a))) as [_|?]; [|lia].
  by rewrite Hv.
Qed.

Lemma np_index_nat a (k : nat) v :
  a !! k = Some v -> np_index a (Z.of_nat k) = Ok v.
Proof. intros Hv. apply np_index_nonneg; [lia|]. by rewrite Nat2Z.id. Qed.

Lemma np_index_from_end a (k : nat) v :
  (k < length a)%nat -> a !! (length a - 1 - k)%nat = Some v ->
  np_index a (-1 - Z.of_nat k) = Ok v.
Proof.
  intros Hk Hv. unfold np_index.
  destruct (decide (-1 - Z.of_nat k < 0)) as [_|?]; [|lia].
  case_decide; [|lia].
  replace (Z.to_nat (-1 - Z.of_nat k + Z.of_nat (length a)))
    with (length a - 1 - k)%nat by lia.
  by rewrite Hv.
Qed.

Lemma np_index_Ok_iff a i :
  (exists v, np_index a i = Ok v)
  <-> - Z.of_nat (length a) <= i < Z.of_nat (length a).
Proof.
  unfold np_index. split.
  - intros [v Hv]. destruct (decide (i < 0)); case_decide; try discriminate; lia.
  - intros Hi. destruct (decide (i < 0)); (case_decide; [|lia]).
    + destruct (lookup_lt_is_Some_2 a (Z.to_nat (i + Z.of_nat (length a))))
        as [v ->]; [lia|]. eauto.
    + destruct (lookup_lt_is_Some_2 a (Z.to_nat i)) as [v ->]; [lia|]. eauto.
Qed.

Lemma np_index_Raise a i e : np_index a i = Raise e -> e = IndexError.
Proof.
  unfold np_index. intros H.
  case_decide; [destruct (a !! _)|]; congruence.
Qed.

Lemma np_index_cases a i :
  (exists v, np_index a i = Ok v
             /\ - Z.of_nat (length a) <= i < Z.of_nat (length a))
  \/ (np_index a i = Raise IndexError
      /\ ~ - Z.of_nat (length a) <= i < Z.of_nat (length a)).
Proof.
  destruct (np_index a i) as [v|e] eqn:E.
  - left. exists v. split; [done|]. apply np_index_Ok_iff. eauto.
  - right. rewrite (np_index_Raise _ _ _ E). split; [done|].
    intros Hi. apply np_index_Ok_iff in Hi as [v Hv]. congruence.
Qed.
End Indexing.

(** ** Angles *)

Lemma atan2_pos (y x : R) : (0 < x)%R -> atan2 y x = atan (y / x).
Proof. intros Hx. unfold atan2. destruct (Rlt_dec 0 x); [done|contradiction]. Qed.

Lemma atan2_neg_axis (x : R) : (x < 0)%R -> atan2 0 x = PI.
Proof.
  intros Hx. unfold atan2.
  destruct (Rlt_dec 0 x); [lra|].
  destruct (Rlt_dec x 0); [|lra].
  destruct (Rle_dec 0 0); [|lra].
  replace (0 / x)%R with 0%R by (field; lra).
  rewrite atan_0. lra.
Qed.

Lemma degrees_atan2_0_1 : degrees (atan2 0 1) = 0%R.
Proof.
  rewrite atan2_pos by lra. replace (0 / 1)%R with 0%R by lra.
  rewrite atan_0. unfold degrees. lra.
Qed.

Lemma degrees_atan2_1_1 : degrees (atan2 1 1) = 45%R.
Proof.
  rewrite atan2_pos by lra. replace (1 / 1)%R with 1%R by lra.
  rewrite atan_1. unfold degrees. pose proof PI_neq0. by field.
Qed.

Lemma degrees_PI : degrees PI = 180%R.
Proof. unfold degrees. pose proof PI_neq0. by field. Qed.

(** ** The keyword defaults *)

Lemma setdefault_lookup_ne k v (kwargs : gmap string Value) k' :
  k <> k' -> setdefault k v kwargs !! k' = kwargs !! k'.
Proof.
  intros Hne. unfold setdefault. destruct (has_key kwargs k); [done|].
  by rewrite lookup_insert_ne.
Qed.

(** [label_line] only ever adds the seven keywords it has a default for. *)
Lemma text_defaults_lookup_other bg (kwargs : gmap string Value) (k : string) :
  k ∉ ["ha"; "va"; "backgroundcolor"; "clip_on"; "fontsize"; "fontweight";
       "zorder"]%string ->
  text_defaults bg kwargs !! k = kwargs !! k.
Proof.
  intros Hk. unfold text_defaults.
  rewrite !setdefault_lookup_ne by (intros <-; apply Hk; set_solver).
  repeat match goal with
         | |- context [if ?b then _ else _] => destruct b
         end;
    rewrite ?lookup_insert_ne by (intros <-; apply Hk; set_solver); done.
Qed.

Lemma text_defaults_rotation bg (kwargs : gmap string Value) :
  text_defaults bg kwargs !! "rotation"%string = kwargs !! "rotation"%string.
Proof.
  apply text_defaults_lookup_other. rewrite !elem_of_cons, elem_of_nil.
  intros H. repeat destruct H as [H|H]; try discriminate; done.
Qed.

(** ** [label_line]: one call of [ax.text] or an exception *)

Lemma placement_kwargs tr bg seg align end_ offset kwargs p :
  placement tr bg seg align end_ offset kwargs = Ok p ->
  p.2 = text_defaults bg kwargs.
Proof.
  unfold placement. intros H.
  destruct (label_location _ _ _) as [loc|]; [|discriminate].
  cbn in H. destruct (rotation _ _ _ _ _); [|discriminate].
  cbn in H. destruct (local _); [|discriminate].
  cbn in H. by inversion H.
Qed.

Lemma label_line_run label seg align end_ offset kwargs ax :
  label_line label seg align end_ offset kwargs ax =
  match placement (transData ax) (facecolor ax) seg align end_ offset kwargs with
  | Ok p =>
      match kwargs !! "rotation"%string with
      | Some _ => (ax, Raise TypeError)
      | None => (draw (text_of label p) ax, Ok tt)
      end
  | Raise e => (ax, Raise e)
  end.
Proof.
  unfold label_line, get_facecolor.
  destruct (placement _ _ _ _ _ _ _) as [[[xy rot] kw]|e] eqn:E; [|done].
  apply placement_kwargs in E. cbn in E. subst kw.
  unfold ax_text. by rewrite text_defaults_rotation.
Qed.

Lemma label_line_draws label seg align end_ offset kwargs ax p :
  placement (transData ax) (facecolor ax) seg align end_ offset kwargs = Ok p ->
  kwargs !! "rotation"%string = None ->
  label_line label seg align end_ offset kwargs ax
  = (draw (text_of label p) ax, Ok tt).
Proof. intros Hp Hk. by rewrite label_line_run, Hp, Hk. Qed.

(** Whatever [label_line] does, it leaves the transform and the face colour
    of the axes alone. *)
Lemma label_line_frame label seg align end_ offset kwargs ax ax' r :
  label_line label seg align end_ offset kwargs ax = (ax', r) ->
  transData ax' = transData ax /\ facecolor ax' = facecolor ax.
Proof.
  rewrite label_line_run. intros H.
  destruct (placement _ _ _ _ _ _ _); [destruct (kwargs !! _)|];
    by inversion H.
Qed.

(** ** Placement at either end, with the indices in range *)

Lemma placement_given tr bg seg (align : bool) (end_ : string) (offset : Z)
  kwargs :
  placement tr bg seg (Some align) (Some end_) (Some offset) kwargs
  = (loc ← label_location seg end_ offset;
     trans_angle ← rotation tr seg align end_ loc;
     xy ← local (fst <$> loc);
     Ok (xy, trans_angle, text_defaults bg kwargs)).
Proof. done. Qed.

Lemma label_location_bottom (seg : Segment) (offset : Z) :
  label_location seg "bottom" offset
  = (xy ← np_index seg offset; Ok (Some (xy, 1 + offset))).
Proof. unfold label_location. cbn. by rewrite Z.add_0_l. Qed.

Lemma label_location_top (seg : Segment) (offset : Z) :
  label_location seg "top" offset
  = (xy ← np_index seg (-1 - offset); Ok (Some (xy, -1 - offset))).
Proof. done. Qed.

Lemma label_location_other (seg : Segment) (end_ : string) (offset : Z) :
  end_ <> "bottom"%string -> end_ <> "top"%string ->
  label_location seg end_ offset = Ok None.
Proof.
  intros Hb Ht. unfold label_location.
  apply String.eqb_neq in Hb, Ht. by rewrite Hb, Ht.
Qed.


(** ** A normal form of [placement] for a recognised end *)

Lemma label_location_End (seg : Segment) (e : End) (offset : Z) :
  label_location seg (end_keyword e) offset
  = (xy ← np_index seg (anchor_index e offset);
     Ok (Some (xy, ip_index e offset))).
Proof.
  destruct e; [apply label_location_bottom | apply label_location_top].
Qed.

Lemma slope_Ok (seg : Segment) (ip : Z) (p0 p1 : Point) :
  np_index seg ip = Ok p1 -> np_index seg (ip - 1) = Ok p0 ->
  slope seg ip = Ok ((p1.1 - p0.1)%R, (p1.2 - p0.2)%R).
Proof. intros H1 H0. unfold slope. by rewrite H1, H0. Qed.

Lemma slope_Raise (seg : Segment) (ip : Z) :
  (~ exists p1 p0, np_index seg ip = Ok p1 /\ np_index seg (ip - 1) = Ok p0) ->
  slope seg ip = Raise IndexError.
Proof.
  intros H. unfold slope.
  destruct (np_index seg ip) as [p1|e1] eqn:E1; cbn.
  - destruct (np_index seg (ip - 1)) as [p0|e0] eqn:E0; cbn.
    + destruct H; eauto.
    + by rewrite (np_index_Raise _ _ _ E0).
  - by rewrite (np_index_Raise _ _ _ E1).
Qed.

Lemma tangent_used_Ok (seg : Segment) (e : End) (offset : Z) (xy p0 p1 : Point) :
  np_index seg (anchor_index e offset) = Ok xy ->
  np_index seg (ip_index e offset) = Ok p1 ->
  np_index seg (ip_index e offset - 1) = Ok p0 ->
  tangent_used seg e offset = Ok ((p1.1 - p0.1)%R, (p1.2 - p0.2)%R).
Proof.
  intros Ha H1 H0. unfold tangent_used.
  rewrite label_location_End, Ha. cbn. by apply slope_Ok.
Qed.

Lemma angle_used_Ok tr (seg : Segment) (e : End) (offset : Z) (xy p0 p1 : Point) :
  np_index seg (anchor_index e offset) = Ok xy ->
  np_index seg (ip_index e offset) = Ok p1 ->
  np_index seg (ip_index e offset - 1) = Ok p0 ->
  angle_used tr seg e offset
  = Ok (transform_angles tr (degrees (atan2 (p1.2 - p0.2) (p1.1 - p0.1))) xy).
Proof.
  intros Ha H1 H0. unfold angle_used.
  rewrite label_location_End, Ha. cbn.
  unfold screen_angle, slope_angle. cbn.
  by rewrite (slope_Ok seg _ p0 p1).
Qed.

Section PlacementEnd.
Variables (tr : Transform) (bg : Value) (kwargs : gmap string Value).
Variables (seg : Segment) (e : End) (offset : Z).

Lemma placement_anchor_Raise (align : bool) :
  (~ exists xy, np_index seg (anchor_index e offset) = Ok xy) ->
  placement tr bg seg (Some align) (Some (end_keyword e)) (Some offset) kwargs
  = Raise IndexError.
Proof.
  intros H. rewrite placement_given, label_location_End.
  destruct (np_index seg _) as [xy|e'] eqn:E; [destruct H; eauto|].
  by rewrite (np_index_Raise _ _ _ E).
Qed.

Lemma placement_plain (xy : Point) :
  np_index seg (anchor_index e offset) = Ok xy ->
  placement tr bg seg (Some false) (Some (end_keyword e)) (Some offset) kwargs
  = Ok (xy, 0%R, text_defaults bg kwargs).
Proof.
  intros Ha. by rewrite placement_given, label_location_End, Ha.
Qed.

Lemma placement_align (xy p0 p1 : Point) :
  np_index seg (anchor_index e offset) = Ok xy ->
  np_index seg (ip_index e offset) = Ok p1 ->
  np_index seg (ip_index e offset - 1) = Ok p0 ->
  placement tr bg seg (Some true) (Some (end_keyword e)) (Some offset) kwargs
  = Ok (xy,
        let a := transform_angles tr
                   (degrees (atan2 (p1.2 - p0.2) (p1.1 - p0.1))) xy in
        match e with START => a | END => (a - 180)%R end,
        text_defaults bg kwargs).
Proof.
  intros Ha H1 H0. rewrite placement_given, label_location_End, Ha. cbn.
  unfold screen_angle, slope_angle. cbn.
  rewrite (slope_Ok seg _ p0 p1) by done. by destruct e.
Qed.

Lemma placement_slope_Raise (xy : Point) :
  np_index seg (anchor_index e offset) = Ok xy ->
  (~ exists p1 p0, np_index seg (ip_index e offset) = Ok p1
                   /\ np_index seg (ip_index e offset - 1) = Ok p0) ->
  placement tr bg seg (Some true) (Some (end_keyword e)) (Some offset) kwargs
  = Raise IndexError.
Proof.
  intros Ha H. rewrite placement_given, label_location_End, Ha. cbn.
  unfold screen_angle, slope_angle. cbn.
  by rewrite slope_Raise.
Qed.
End PlacementEnd.

(** An end that is neither ['bottom'] nor ['top'] binds no local: the first
    read of one raises. *)
Lemma placement_unrecognised tr bg seg (align : bool) (end_ : string)
  (offset : Z) kwargs :
  end_ <> "bottom"%string -> end_ <> "top"%string ->
  placement tr bg seg (Some align) (Some end_) (Some offset) kwargs
  = Raise UnboundLocalError.
Proof.
  intros Hb Ht. rewrite placement_given, label_location_other by done.
  by destruct align.
Qed.

(** In-range offsets, in numbers. *)
Lemma anchor_in_range (seg : Segment) (e : End) (offset : Z) :
  0 <= offset ->
  (exists xy, np_index seg (anchor_index e offset) = Ok xy)
  <-> offset < Z.of_nat (length seg).
Proof.
  intros Ho. rewrite np_index_Ok_iff. destruct e; cbn; lia.
Qed.

Lemma slope_in_range (seg : Segment) (e : End) (offset : Z) :
  0 <= offset ->
  (exists p1 p0, np_index seg (ip_index e offset) = Ok p1
                 /\ np_index seg (ip_index e offset - 1) = Ok p0)
  <-> offset < Z.of_nat (length seg) - 1.
Proof.
  intros Ho. split.
  - intros (p1 & p0 & H1 & H0).
    assert (exists v, np_index seg (ip_index e offset) = Ok v) as I1 by eauto.
    assert (exists v, np_index seg (ip_index e offset - 1) = Ok v) as I0 by eauto.
    apply np_index_Ok_iff in I1, I0. destruct e; cbn in *; lia.
  - intros Hlt.
    destruct (proj2 (np_index_Ok_iff seg (ip_index e offset))) as [p1 H1];
      [destruct e; cbn; lia|].
    destruct (proj2 (np_index_Ok_iff seg (ip_index e offset - 1))) as [p0 H0];
      [destruct e; cbn; lia|].
    eauto.
Qed.

Lemma rotation_used_Ok tr (seg : Segment) (e : End) (offset : Z) (xy p0 p1 : Point) :
  np_index seg (anchor_index e offset) = Ok xy ->
  np_index seg (ip_index e offset) = Ok p1 ->
  np_index seg (ip_index e offset - 1) = Ok p0 ->
  rotation_used tr seg true e offset
  = Ok (let a := transform_angles tr
                   (degrees (atan2 (p1.2 - p0.2) (p1.1 - p0.1))) xy in
        match e with START => a | END => (a - 180)%R end).
Proof.
  intros Ha H1 H0. unfold rotation_used.
  rewrite label_location_End, Ha. cbn.
  unfold screen_angle, slope_angle. cbn.
  rewrite (slope_Ok seg _ p0 p1) by done. by destruct e.
Qed.

(** ** Two concrete lines under the identity transform *)

Lemma degrees_atan2_east : degrees (atan2 (0 - 0) (1 - 0)) = 0%R.
Proof.
  replace (0 - 0)%R with 0%R by lra. replace (1 - 0)%R with 1%R by lra.
  apply degrees_atan2_0_1.
Qed.

Lemma degrees_atan2_west : degrees (atan2 (0 - 0) (0 - 1)) = 180%R.
Proof.
  replace (0 - 0)%R with 0%R by lra.
  rewrite atan2_neg_axis by lra. apply degrees_PI.
Qed.

Lemma degrees_atan2_north_east : degrees (atan2 (1 - 0) (1 - 0)) = 45%R.
Proof.
  replace (1 - 0)%R with 1%R by lra. apply degrees_atan2_1_1.
Qed.

(** C6: under the identity transform, with align on, the line
    [(0,0), (1,1)] labelled at START with offset 0 has a data-space angle
    of exactly 45 degrees, and that is the rotation of the text drawn. *)
Theorem diagonal_start_angle_45 (label bg : Value) (ts : list Text) :
  let seg := diagonal in
  let ax := {| transData := identity; facecolor := bg; texts := ts |} in
  slope_angle seg (ip_index START 0) = Ok 45%R
  /\ angle_used identity seg START 0 = Ok 45%R
  /\ label_line label seg (Some true) (Some "bottom"%string) (Some 0) ∅ ax
     = (draw {| text_x := 0; text_y := 0; text_s := label;
                text_rotation := 45;
                text_kwargs := text_defaults bg ∅ |} ax, Ok tt).
Proof.
  intros seg ax.
  assert (np_index seg (anchor_index START 0) = Ok (0, 0)%R) as Ha by done.
  assert (np_index seg (ip_index START 0) = Ok (1, 1)%R) as H1 by done.
  assert (np_index seg (ip_index START 0 - 1) = Ok (0, 0)%R) as H0 by done.
  split; [|split].
  - unfold slope_angle. rewrite (slope_Ok seg _ _ _ H1 H0). cbn.
    by rewrite degrees_atan2_north_east.
  - rewrite (angle_used_Ok identity seg START 0 _ _ _ Ha H1 H0). cbn.
    by rewrite degrees_atan2_north_east.
  - erewrite label_line_draws;
      [| apply (placement_align _ _ _ seg START 0 _ _ _ Ha H1 H0) | done].
    cbn. by rewrite degrees_atan2_north_east.
Qed.

(** The horizontal line [(0,0), (1,0)]: what is read at either end. *)
Lemma horizontal_reads (e : End) :
  np_index horizontal (anchor_index e 0)
  = Ok (match e with START => 0 | END => 1 end, 0)%R
  /\ np_index horizontal (ip_index e 0) = Ok (1, 0)%R
  /\ np_index horizontal (ip_index e 0 - 1) = Ok (0, 0)%R.
Proof. by destruct e. Qed.

(** C1, as stated, fails: at the END of [(0,0), (1,0)] the angle before the
    adjustment is 0 and not 180 degrees, because the slope is taken in the
    same direction at both ends, and the rotation after subtracting 180 is
    -180 and not 0 degrees. *)
Lemma horizontal_end_angle_not_180 :
  ~ (angle_used identity horizontal START 0 = Ok 0%R
     /\ angle_used identity horizontal END 0 = Ok 180%R
     /\ rotation_used identity horizontal true END 0 = Ok 0%R).
Proof.
  intros (_ & H & _).
  destruct (horizontal_reads END) as (Ha & H1 & H0).
  rewrite (angle_used_Ok identity _ END 0 _ _ _ Ha H1 H0) in H.
  cbn in H. rewrite degrees_atan2_east in H.
  assert (0%R = 180%R) as E by congruence. lra.
Qed.

(** C1, amended: under the identity transform the line [(0,0), (1,0)] has
    angle 0 at START with offset 0; at END with offset 0 the angle is 0
    before the adjustment and the rotation is -180 after it. *)
Theorem horizontal_line_angles (label bg : Value) (ts : list Text) :
  let seg := horizontal in
  let ax := {| transData := identity; facecolor := bg; texts := ts |} in
  angle_used identity seg START 0 = Ok 0%R
  /\ rotation_used identity seg true START 0 = Ok 0%R
  /\ angle_used identity seg END 0 = Ok 0%R
  /\ rotation_used identity seg true END 0 = Ok (-180)%R
  /\ label_line label seg (Some true) (Some "bottom"%string) (Some 0) ∅ ax
     = (draw {| text_x := 0; text_y := 0; text_s := label;
                text_rotation := 0;
                text_kwargs := text_defaults bg ∅ |} ax, Ok tt)
  /\ label_line label seg (Some true) (Some "top"%string) (Some 0) ∅ ax
     = (draw {| text_x := 1; text_y := 0; text_s := label;
                text_rotation := -180;
                text_kwargs := text_defaults bg ∅ |} ax, Ok tt).
Proof.
  intros seg ax.
  destruct (horizontal_reads START) as (Sa & S1 & S0).
  destruct (horizontal_reads END) as (Ea & E1 & E0).
  fold seg in Sa, S1, S0, Ea, E1, E0.
  assert (0 - 180 = -180)%R as Hsub by lra.
  repeat split.
  - rewrite (angle_used_Ok identity seg START 0 _ _ _ Sa S1 S0). cbn.
    by rewrite degrees_atan2_east.
  - rewrite (rotation_used_Ok identity seg START 0 _ _ _ Sa S1 S0). cbn.
    by rewrite degrees_atan2_east.
  - rewrite (angle_used_Ok identity seg END 0 _ _ _ Ea E1 E0). cbn.
    by rewrite degrees_atan2_east.
  - rewrite (rotation_used_Ok identity seg END 0 _ _ _ Ea E1 E0). cbn.
    by rewrite degrees_atan2_east, Hsub.
  - erewrite label_line_draws;
      [| apply (placement_align _ _ _ seg START 0 _ _ _ Sa S1 S0) | done].
    cbn. by rewrite degrees_atan2_east.
  - erewrite label_line_draws;
      [| apply (placement_align _ _ _ seg END 0 _ _ _ Ea E1 E0) | done].
    cbn. by rewrite degrees_atan2_east, Hsub.
Qed.

(** ** The tangent *)

(** C2, as stated, fails at START: for [(0,0), (1,0)] with offset 0 the
    specification's vector, point[0] - point[1], is (-1, 0) with angle 180,
    while [label_line] uses point[1] - point[0] = (1, 0) with angle 0. *)
Lemma start_tangent_not_first_minus_second :
  tangent_used horizontal START 0 = Ok (1 - 0, 0 - 0)%R
  /\ spec_tangent horizontal START 0 = Ok (0 - 1, 0 - 0)%R
  /\ tangent_used horizontal START 0
     <> spec_tangent horizontal START 0
  /\ angle_used identity horizontal START 0 = Ok 0%R
  /\ (d ← spec_tangent horizontal START 0;
      Ok (degrees (atan2 d.2 d.1))) = Ok 180%R.
Proof.
  destruct (horizontal_reads START) as (Sa & S1 & S0).
  assert (tangent_used horizontal START 0 = Ok (1 - 0, 0 - 0)%R) as Hc
    by apply (tangent_used_Ok _ START 0 _ _ _ Sa S1 S0).
  assert (spec_tangent horizontal START 0 = Ok (0 - 1, 0 - 0)%R) as Hs
    by done.
  repeat split; try done.
  - rewrite Hc, Hs. intros H.
    assert ((1 - 0)%R = (0 - 1)%R) as E by congruence. lra.
  - rewrite (angle_used_Ok identity _ START 0 _ _ _ Sa S1 S0). cbn.
    by rewrite degrees_atan2_east.
  - rewrite Hs. cbn. by rewrite degrees_atan2_west.
Qed.

Lemma np_index_wrap {A : Type} (a : list A) (i : Z) :
  - Z.of_nat (length a) <= i < 0 ->
  np_index a i = np_index a (i + Z.of_nat (length a)).
Proof.
  intros Hi. unfold np_index.
  destruct (decide (i < 0)) as [_|?]; [|lia].
  destruct (decide (i + Z.of_nat (length a) < 0)) as [?|_]; [lia|].
  done.
Qed.

(** C2, amended: for a polyline of length >= 2 and an in-range offset, with
    align on, the data-space tangent used by [label_line] is the later
    point minus the earlier point of the tangent pair at both ends:
    point[pair[1]] - point[pair[0]] for START, where the pair is
    (offset, offset+1), and point[pair[0]] - point[pair[1]] for END, where
    the pair is (length-1-offset, length-2-offset).  The data-space angle is
    atan2(dy, dx) of that vector in degrees; it is transformed at the
    anchor point[pair[0]], and 180 is subtracted for END. *)
Theorem tangent_is_forward_difference (tr : Transform) (bg : Value)
  (kwargs : gmap string Value) (seg : Segment) (e : End) (offset : Z) :
  (2 <= length seg)%nat ->
  0 <= offset <= Z.of_nat (length seg) - 2 ->
  exists pa pb : Point,
    let pair := spec_tangent_pair e (Z.of_nat (length seg)) offset in
    let d := match e with
             | START => ((pb.1 - pa.1)%R, (pb.2 - pa.2)%R)
             | END => ((pa.1 - pb.1)%R, (pa.2 - pb.2)%R)
             end in
    let a := transform_angles tr (degrees (atan2 d.2 d.1)) pa in
    np_index seg pair.1 = Ok pa
    /\ np_index seg pair.2 = Ok pb
    /\ tangent_used seg e offset = Ok d
    /\ angle_used tr seg e offset = Ok a
    /\ placement tr bg seg (Some true) (Some (end_keyword e)) (Some offset)
                 kwargs
       = Ok (pa, match e with START => a | END => (a - 180)%R end,
             text_defaults bg kwargs).
Proof.
  intros Hlen Ho.
  set (n := Z.of_nat (length seg)) in *.
  destruct (proj2 (np_index_Ok_iff seg (spec_tangent_pair e n offset).1))
    as [pa Hpa]; [destruct e; cbn; lia|].
  destruct (proj2 (np_index_Ok_iff seg (spec_tangent_pair e n offset).2))
    as [pb Hpb]; [destruct e; cbn; lia|].
  exists pa, pb. cbv zeta. split; [done|]. split; [done|].
  destruct e; cbn in Hpa, Hpb.
  - assert (np_index seg (anchor_index START offset) = Ok pa) as Ha by done.
    assert (np_index seg (ip_index START offset) = Ok pb) as H1
      by (cbn; by replace (1 + offset) with (offset + 1) by lia).
    assert (np_index seg (ip_index START offset - 1) = Ok pa) as H0
      by (cbn; by replace (1 + offset - 1) with offset by lia).
    rewrite (tangent_used_Ok seg START offset _ _ _ Ha H1 H0),
      (angle_used_Ok tr seg START offset _ _ _ Ha H1 H0),
      (placement_align tr bg kwargs seg START offset _ _ _ Ha H1 H0).
    done.
  - assert (np_index seg (anchor_index END offset) = Ok pa) as Ha.
    { cbn. rewrite np_index_wrap by lia.
      by replace (-1 - offset + Z.of_nat (length seg)) with (n - 1 - offset)
        by lia. }
    assert (np_index seg (ip_index END offset - 1) = Ok pb) as H0.
    { cbn. rewrite np_index_wrap by lia.
      by replace (-1 - offset - 1 + Z.of_nat (length seg))
        with (n - 2 - offset) by lia. }
    rewrite (tangent_used_Ok seg END offset _ _ _ Ha Ha H0),
      (angle_used_Ok tr seg END offset _ _ _ Ha Ha H0),
      (placement_align tr bg kwargs seg END offset _ _ _ Ha Ha H0).
    done.
Qed.

Lemma tangent_is_forward_difference_witness :
  (2 <= length bent)%nat
  /\ 0 <= 1 <= Z.of_nat (length bent) - 2
  /\ exists pa pb : Point,
       np_index bent 1 = Ok pa
       /\ np_index bent 0 = Ok pb
       /\ tangent_used bent END 1
          = Ok ((pa.1 - pb.1)%R, (pa.2 - pb.2)%R).
Proof.
  split; [cbn; lia|]. split; [cbn; lia|].
  destruct (tangent_is_forward_difference identity (VStr "white") ∅
              bent END 1)
    as (pa & pb & Ha & Hb & Ht & _); [cbn; lia | cbn; lia |].
  exists pa, pb. exact (conj Ha (conj Hb Ht)).
Defined.

(** ** Anchors at the two ends *)

Lemma np_index_head {A : Type} (a : list A) (v : A) :
  head a = Some v -> np_index a 0 = Ok v.
Proof. intros H. apply (np_index_nat a 0). by rewrite <- head_lookup. Qed.

Lemma np_index_last {A : Type} (a : list A) (v : A) :
  last a = Some v -> np_index a (-1) = Ok v.
Proof.
  intros H. rewrite last_lookup in H.
  pose proof (lookup_lt_Some _ _ _ H) as Hlt.
  apply (np_index_from_end a 0); [lia|].
  by replace (length a - 1 - 0)%nat with (pred (length a)) by lia.
Qed.

(** C5: for every polyline of length >= 2, a label at START with offset 0
    is anchored at the first point and a label at END with offset 0 at the
    last point; at END the reported rotation is the angle before the END
    adjustment minus 180 degrees, hence equal to it modulo 360. *)
Theorem anchors_at_first_and_last (tr : Transform) (bg : Value)
  (kwargs : gmap string Value) (seg : Segment) :
  (2 <= length seg)%nat ->
  exists (first lst : Point) (rot_start unended reported : R),
    head seg = Some first
    /\ last seg = Some lst
    /\ placement tr bg seg (Some true) (Some (end_keyword START)) (Some 0)
                 kwargs
       = Ok (first, rot_start, text_defaults bg kwargs)
    /\ angle_used tr seg END 0 = Ok unended
    /\ placement tr bg seg (Some true) (Some (end_keyword END)) (Some 0)
                 kwargs
       = Ok (lst, reported, text_defaults bg kwargs)
    /\ reported = (unended - 180)%R
    /\ (exists k : Z, reported = (unended - 180 + 360 * IZR k)%R)
    /\ placement tr bg seg (Some false) (Some (end_keyword START)) (Some 0)
                 kwargs
       = Ok (first, 0%R, text_defaults bg kwargs)
    /\ placement tr bg seg (Some false) (Some (end_keyword END)) (Some 0)
                 kwargs
       = Ok (lst, 0%R, text_defaults bg kwargs).
Proof.
  intros Hlen.
  destruct seg as [|first seg']; [cbn in Hlen; lia|].
  destruct (last (first :: seg')) as [lst|] eqn:Hlast;
    [|apply last_None in Hlast; discriminate].
  set (seg := first :: seg') in *.
  assert (np_index seg (anchor_index START 0) = Ok first) as Sa
    by by apply np_index_head.
  assert (np_index seg (anchor_index END 0) = Ok lst) as Ea
    by by apply np_index_last.
  destruct (proj2 (slope_in_range seg START 0 (Z.le_refl 0)))
    as (s1 & s0 & S1 & S0); [lia|].
  destruct (proj2 (slope_in_range seg END 0 (Z.le_refl 0)))
    as (e1 & e0 & E1 & E0); [lia|].
  eexists first, lst, _, _, _.
  split; [done|]. split; [done|].
  split; [apply (placement_align tr bg kwargs seg START 0 _ _ _ Sa S1 S0)|].
  split; [apply (angle_used_Ok tr seg END 0 _ _ _ Ea E1 E0)|].
  split; [apply (placement_align tr bg kwargs seg END 0 _ _ _ Ea E1 E0)|].
  split; [done|].
  split; [exists 0; lra|].
  split; [apply (placement_plain tr bg kwargs seg START 0 _ Sa)
         |apply (placement_plain tr bg kwargs seg END 0 _ Ea)].
Qed.

Lemma anchors_at_first_and_last_witness :
  (2 <= length bent)%nat
  /\ exists (first lst : Point) (reported : R),
       head bent = Some first
       /\ last bent = Some lst
       /\ placement identity (VStr "white") bent
                    (Some true) (Some (end_keyword END)) (Some 0) ∅
          = Ok (lst, reported, text_defaults (VStr "white") ∅).
Proof.
  split; [cbn; lia|].
  destruct (anchors_at_first_and_last identity (VStr "white") ∅ bent)
    as (first & lst & _ & _ & reported & Hh & Hl & _ & _ & Hp & _);
    [cbn; lia|].
  exists first, lst, reported. exact (conj Hh (conj Hl Hp)).
Defined.

(** ** Without alignment *)

Lemma placement_plain_rotation tr bg seg end_ offset kwargs p :
  placement tr bg seg (Some false) end_ offset kwargs = Ok p ->
  p.1.2 = 0%R.
Proof.
  unfold placement. cbn. intros H.
  destruct (label_location _ _ _) as [loc|]; [|discriminate].
  cbn in H. destruct (local _); [|discriminate].
  cbn in H. by inversion H.
Qed.

(** C7: with align off, whatever the polyline, the selector and the
    transform, a label that is drawn has rotation 0; and it is drawn
    whenever the anchor index is in range. *)
Theorem align_false_rotation_0 (label : Value) (seg : Segment)
  (kwargs : gmap string Value) (ax : Axes) :
  (forall (end_ : option string) (offset : option Z) (ax' : Axes),
      label_line label seg (Some false) end_ offset kwargs ax = (ax', Ok tt) ->
      exists t, ax' = draw t ax /\ text_rotation t = 0%R)
  /\ (forall (e : End) (offset : Z),
         0 <= offset < Z.of_nat (length seg) ->
         kwargs !! "rotation"%string = None ->
         exists t,
           label_line label seg (Some false) (Some (end_keyword e))
                      (Some offset) kwargs ax = (draw t ax, Ok tt)
           /\ text_rotation t = 0%R).
Proof.
  split.
  - intros end_ offset ax'. rewrite label_line_run.
    destruct (placement _ _ _ _ _ _ _) as [p|] eqn:Hp; [|discriminate].
    destruct (kwargs !! _); [discriminate|].
    intros H. inversion H. exists (text_of label p). split; [done|].
    apply (placement_plain_rotation _ _ _ _ _ _ _ Hp).
  - intros e offset Ho Hk.
    destruct (proj2 (anchor_in_range seg e offset (proj1 Ho))) as [xy Ha];
      [lia|].
    eexists. split; [|shelve].
    apply label_line_draws; [|done].
    apply (placement_plain _ _ _ seg e offset _ Ha).
    Unshelve. done.
Qed.

Lemma align_false_rotation_0_witness :
  0 <= 1 < Z.of_nat (length diagonal)
  /\ (∅ : gmap string Value) !! "rotation"%string = None
  /\ exists t,
       label_line (VInt 5) diagonal (Some false) (Some (end_keyword END))
                  (Some 1) ∅ white_axes = (draw t white_axes, Ok tt)
       /\ text_rotation t = 0%R.
Proof.
  split; [cbn; lia|]. split; [reflexivity|].
  apply (proj2 (align_false_rotation_0 (VInt 5) diagonal ∅ white_axes) END 1);
    [cbn; lia | reflexivity].
Defined.

(** ** Failures of [label_line] *)

(** For a recognised end, [placement] either succeeds, with every index it
    reads in range, or raises IndexError, with one of them out of range. *)
Lemma placement_End_cases tr bg kwargs (seg : Segment) (e : End) (offset : Z)
  (align : bool) :
  let reads_ok :=
    (exists xy, np_index seg (anchor_index e offset) = Ok xy)
    /\ (align = true ->
        exists p1 p0, np_index seg (ip_index e offset) = Ok p1
                      /\ np_index seg (ip_index e offset - 1) = Ok p0) in
  ((exists p, placement tr bg seg (Some align) (Some (end_keyword e))
                        (Some offset) kwargs = Ok p) /\ reads_ok)
  \/ (placement tr bg seg (Some align) (Some (end_keyword e)) (Some offset)
                kwargs = Raise IndexError /\ ~ reads_ok).
Proof.
  intros reads_ok. subst reads_ok.
  destruct (np_index seg (anchor_index e offset)) as [xy|err] eqn:Ha.
  2:{ right. split; [|by intros [[? ?] _]].
      apply placement_anchor_Raise. rewrite Ha. by intros [? ?]. }
  destruct align.
  - destruct (np_index seg (ip_index e offset)) as [p1|e1] eqn:H1;
      [destruct (np_index seg (ip_index e offset - 1)) as [p0|e0] eqn:H0|].
    + left. rewrite (placement_align _ _ _ seg e offset _ _ _ Ha H1 H0).
      split; [eauto|]. split; [eauto|]. intros _. eauto.
    + right. split.
      * apply (placement_slope_Raise _ _ _ seg e offset _ Ha).
        rewrite H0. by intros (? & ? & _ & ?).
      * intros [_ H]. destruct (H eq_refl) as (? & ? & _ & ?). congruence.
    + right. split.
      * apply (placement_slope_Raise _ _ _ seg e offset _ Ha).
        rewrite H1. by intros (? & ? & ? & _).
      * intros [_ H]. destruct (H eq_refl) as (? & ? & ? & _). congruence.
  - left. rewrite (placement_plain _ _ _ seg e offset _ Ha).
    split; [eauto|]. split; [eauto|]. discriminate.
Qed.

Lemma placement_in_range (seg : Segment) (e : End) (offset : Z) :
  0 <= offset < Z.of_nat (length seg) - 1 ->
  forall tr bg (align : bool) kwargs,
    exists p, placement tr bg seg (Some align) (Some (end_keyword e))
                        (Some offset) kwargs = Ok p.
Proof.
  intros Ho tr bg align kwargs.
  destruct (proj2 (anchor_in_range seg e offset (proj1 Ho))) as [xy Ha];
    [lia|].
  destruct (proj2 (slope_in_range seg e offset (proj1 Ho)))
    as (p1 & p0 & H1 & H0); [lia|].
  destruct align.
  - rewrite (placement_align _ _ _ seg e offset _ _ _ Ha H1 H0). eauto.
  - rewrite (placement_plain _ _ _ seg e offset _ Ha). eauto.
Qed.

(** C8: for a polyline of at least 2 points and 0 <= offset < length - 1,
    every index that [label_line] reads is in bounds at either end (the
    negative ones used at the top end included), with or without alignment,
    so no IndexError is raised. *)
Theorem reads_in_bounds (seg : Segment) (e : End) (offset : Z) :
  (2 <= length seg)%nat ->
  0 <= offset < Z.of_nat (length seg) - 1 ->
  (exists xy p1 p0 : Point,
      label_location seg (end_keyword e) offset
      = Ok (Some (xy, ip_index e offset))
      /\ np_index seg (anchor_index e offset) = Ok xy
      /\ np_index seg (ip_index e offset) = Ok p1
      /\ np_index seg (ip_index e offset - 1) = Ok p0)
  /\ (forall tr bg (align : bool) kwargs,
         exists p, placement tr bg seg (Some align) (Some (end_keyword e))
                             (Some offset) kwargs = Ok p)
  /\ (forall label (align : bool) kwargs ax,
         (label_line label seg (Some align) (Some (end_keyword e))
                     (Some offset) kwargs ax).2 <> Raise IndexError).
Proof.
  intros Hlen Ho.
  destruct (proj2 (anchor_in_range seg e offset (proj1 Ho))) as [xy Ha];
    [lia|].
  destruct (proj2 (slope_in_range seg e offset (proj1 Ho)))
    as (p1 & p0 & H1 & H0); [lia|].
  pose proof (placement_in_range seg e offset Ho) as Hp.
  split; [|split; [done|]].
  - exists xy, p1, p0. by rewrite label_location_End, Ha.
  - intros label align kwargs ax. rewrite label_line_run.
    destruct (Hp (transData ax) (facecolor ax) align kwargs) as [p ->].
    by destruct (kwargs !! _).
Qed.

Lemma reads_in_bounds_witness :
  (2 <= length bent)%nat
  /\ 0 <= 1 < Z.of_nat (length bent) - 1
  /\ exists xy p1 p0 : Point,
       np_index bent (-2) = Ok xy
       /\ np_index bent (-2) = Ok p1
       /\ np_index bent (-3) = Ok p0.
Proof.
  split; [cbn; lia|]. split; [cbn; lia|].
  destruct (reads_in_bounds bent END 1)
    as [(xy & p1 & p0 & _ & Ha & H1 & H0) _]; [cbn; lia | cbn; lia |].
  exists xy, p1, p0. exact (conj Ha (conj H1 H0)).
Defined.

(** C3, as stated, fails.  With align off the tangent pair is not read: on
    a line of 2 points, START and offset 1 push the pair's index 2 out of
    [0, 1], and the label is drawn all the same.  And IndexError is not the
    only failure: an end keyword that is neither ['bottom'] nor ['top']
    raises UnboundLocalError, and a [rotation] keyword passed along meets
    the one of the call and raises TypeError. *)
Lemma index_error_claim_fails :
  (spec_index_out_of_range START (Z.of_nat (length horizontal)) 1
   /\ (label_line (VInt 7) horizontal (Some false) (Some (end_keyword START))
                  (Some 1) ∅ white_axes).2 = Ok tt)
  /\ (label_line (VInt 7) horizontal (Some true) (Some "middle"%string)
                 (Some 0) ∅ white_axes).2 = Raise UnboundLocalError
  /\ (label_line (VInt 7) horizontal (Some true) (Some (end_keyword START))
                 (Some 0) {["rotation"%string := VInt 30]} white_axes).2
     = Raise TypeError.
Proof.
  split; [split|split].
  - unfold spec_index_out_of_range. cbn. lia.
  - rewrite label_line_run.
    by rewrite (placement_plain _ _ _ horizontal START 1 (1, 0)%R).
  - rewrite label_line_run. by rewrite placement_unrecognised.
  - rewrite label_line_run.
    destruct (horizontal_reads START) as (Sa & S1 & S0).
    by rewrite (placement_align _ _ _ horizontal START 0 _ _ _ Sa S1 S0).
Qed.

(** C3, amended: for a START or END selector, an offset >= 0 and no
    [rotation] keyword passed along, [label_line] fails exactly when an
    index it reads is out of range, that is when offset >= length - 1 with
    align on and when offset >= length with align off, where the tangent
    pair is not read; the failure is then an IndexError. *)
Theorem label_line_index_error (label : Value) (seg : Segment) (align : bool)
  (e : End) (offset : Z) (kwargs : gmap string Value) (ax : Axes) :
  0 <= offset ->
  kwargs !! "rotation"%string = None ->
  let r := (label_line label seg (Some align) (Some (end_keyword e))
                       (Some offset) kwargs ax).2 in
  let out := if align then Z.of_nat (length seg) - 1 <= offset
             else Z.of_nat (length seg) <= offset in
  (r = Raise IndexError <-> out)
  /\ (r = Ok tt <-> ~ out)
  /\ (forall err, r = Raise err -> err = IndexError).
Proof.
  intros Ho Hk r out. subst r. rewrite label_line_run.
  pose proof (anchor_in_range seg e offset Ho) as Hanchor.
  pose proof (slope_in_range seg e offset Ho) as Hslope.
  assert (Decision out) as Hdec by (subst out; destruct align; apply _).
  destruct (placement_End_cases (transData ax) (facecolor ax) kwargs
              seg e offset align) as [[[p ->] [Hxy Hs]]|[-> Hno]];
    rewrite ?Hk; cbn.
  - assert (~ out) as Hin.
    { subst out. apply Hanchor in Hxy. destruct align; [|lia].
      specialize (Hs eq_refl). apply Hslope in Hs. lia. }
    split; [split; [done|by intros ?]|]. split; [done|]. by intros err.
  - assert out as Hout.
    { destruct Hdec as [?|Hin]; [done|]. destruct Hno. subst out. split.
      - apply Hanchor. destruct align; lia.
      - intros ->. apply Hslope. lia. }
    split; [done|]. split; [split; [done|by intros ?]|].
    intros err. congruence.
Qed.

Lemma label_line_index_error_witness :
  0 <= 1
  /\ (∅ : gmap string Value) !! "rotation"%string = None
  /\ ((label_line (VInt 7) horizontal (Some true) (Some (end_keyword END))
                  (Some 1) ∅ white_axes).2 = Raise IndexError
      <-> Z.of_nat (length horizontal) - 1 <= 1).
Proof.
  split; [lia|]. split; [reflexivity|].
  apply (label_line_index_error (VInt 7) horizontal true END 1 ∅ white_axes);
    [lia | reflexivity].
Defined.

(** ** Determinism of [label_line] *)

Lemma label_line_outcome label seg align end_ offset kwargs ax :
  label_line label seg align end_ offset kwargs ax
  = run (outcome (transData ax) (facecolor ax) label seg align end_ offset
                 kwargs) ax.
Proof.
  rewrite label_line_run. unfold outcome.
  destruct (placement _ _ _ _ _ _ _); cbn; [|done].
  by destruct (kwargs !! _).
Qed.

Lemma placement_facecolor tr bg1 bg2 seg align end_ offset kwargs :
  placement tr bg1 seg align end_ offset kwargs
  = match placement tr bg2 seg align end_ offset kwargs with
    | Ok p => Ok (p.1, text_defaults bg1 kwargs)
    | Raise e => Raise e
    end.
Proof.
  unfold placement.
  destruct (label_location _ _ _) as [loc|]; cbn; [|done].
  destruct (rotation _ _ _ _ _); cbn; [|done].
  by destruct (local _).
Qed.

Lemma has_key_insert_ne (m : gmap string Value) k k' w :
  k <> k' -> has_key (<[k' := w]> m) k = has_key m k.
Proof. intros Hne. unfold has_key. by rewrite lookup_insert_ne. Qed.

Lemma setdefault_insert_comm (m : gmap string Value) k v k' w :
  k <> k' ->
  setdefault k v (<[k' := w]> m) = <[k' := w]> (setdefault k v m).
Proof.
  intros Hne. unfold setdefault. rewrite has_key_insert_ne by done.
  destruct (has_key m k); [done|]. by apply insert_insert_ne.
Qed.

(** The face colour of the axes reaches the text only under the keyword
    [backgroundcolor]. *)
Lemma text_defaults_facecolor bg1 bg2 (kwargs : gmap string Value) :
  delete "backgroundcolor"%string (text_defaults bg1 kwargs)
  = delete "backgroundcolor"%string (text_defaults bg2 kwargs).
Proof.
  unfold text_defaults.
  set (m := if negb (has_key _ "verticalalignment") && _ then _ else _).
  clearbody m. destruct (has_key m "backgroundcolor"); [done|].
  rewrite !setdefault_insert_comm by done.
  by rewrite !delete_insert_eq.
Qed.

(** C9: [label_line] is deterministic.  Two calls with the same polyline,
    selector, align flag, label and keywords on axes with the same
    transform and face colour draw the same text or raise the same
    exception, whatever else the axes hold; a second call right after a
    first draws the same text again; and axes that agree on the transform
    only still give the same location, rotation and keywords, the
    background colour apart. *)
Theorem label_line_deterministic (label : Value) (seg : Segment)
  (align : option bool) (end_ : option string) (offset : option Z)
  (kwargs : gmap string Value) :
  (forall ax1 ax2 : Axes,
      transData ax1 = transData ax2 -> facecolor ax1 = facecolor ax2 ->
      exists r : Res Text,
        label_line label seg align end_ offset kwargs ax1 = run r ax1
        /\ label_line label seg align end_ offset kwargs ax2 = run r ax2)
  /\ (forall ax ax' : Axes,
         label_line label seg align end_ offset kwargs ax = (ax', Ok tt) ->
         exists t,
           ax' = draw t ax
           /\ label_line label seg align end_ offset kwargs ax'
              = (draw t ax', Ok tt))
  /\ (forall ax1 ax2 : Axes,
         transData ax1 = transData ax2 ->
         (label_line label seg align end_ offset kwargs ax1).2
         = (label_line label seg align end_ offset kwargs ax2).2
         /\ forall t1 t2,
             label_line label seg align end_ offset kwargs ax1
             = (draw t1 ax1, Ok tt) ->
             label_line label seg align end_ offset kwargs ax2
             = (draw t2 ax2, Ok tt) ->
             text_x t1 = text_x t2 /\ text_y t1 = text_y t2
             /\ text_s t1 = text_s t2
             /\ text_rotation t1 = text_rotation t2
             /\ delete "backgroundcolor"%string (text_kwargs t1)
                = delete "backgroundcolor"%string (text_kwargs t2)).
Proof.
  split; [|split].
  - intros ax1 ax2 Htr Hbg.
    exists (outcome (transData ax1) (facecolor ax1) label seg align end_
                    offset kwargs).
    split; [apply label_line_outcome|].
    rewrite Htr, Hbg. apply label_line_outcome.
  - intros ax ax'. rewrite label_line_outcome.
    destruct (outcome _ _ _ _ _ _ _ _) as [t|] eqn:Ho; [|discriminate].
    cbn. intros [= <-]. exists t. split; [done|].
    rewrite label_line_outcome. cbn. by rewrite Ho.
  - intros ax1 ax2 Htr. rewrite !label_line_run, Htr.
    rewrite (placement_facecolor _ (facecolor ax1) (facecolor ax2)).
    destruct (placement _ (facecolor ax2) _ _ _ _ _) as [p|] eqn:Hp; [|done].
    destruct (kwargs !! "rotation"%string); [done|].
    split; [done|]. intros t1 t2 [= H1] [= H2].
    apply app_inv_head in H1, H2.
    injection H1 as <-. injection H2 as <-.
    apply placement_kwargs in Hp. cbn. rewrite Hp.
    repeat split. apply text_defaults_facecolor.
Qed.

(** ** The loop of [label_lines] *)

Lemma add_texts_nil (ax : Axes) : add_texts [] ax = ax.
Proof. destruct ax. unfold add_texts. cbn. by rewrite app_nil_r. Qed.

Lemma add_texts_cons (t : Text) (ts : list Text) (ax : Axes) :
  add_texts ts (draw t ax) = add_texts (t :: ts) ax.
Proof. unfold add_texts, draw. cbn. by rewrite <- app_assoc. Qed.

Lemma np_index_lookup {A : Type} (a : list A) (i : nat) :
  np_index a (Z.of_nat i)
  = match a !! i with Some v => Ok v | None => Raise IndexError end.
Proof.
  destruct (a !! i) as [v|] eqn:E; [by apply np_index_nat|].
  apply lookup_ge_None in E.
  destruct (np_index_cases a (Z.of_nat i)) as [(v & _ & Hi)|[H _]];
    [lia|done].
Qed.

Section Loop.
Variables (labels : list Scalar) (offset : Z) (align : option bool).
Variables (end_ : option string) (kwargs : gmap string Value).

Lemma label_lines_body_outcome (il : nat * Segment) (ax : Axes) :
  label_lines_body labels offset align end_ kwargs il ax
  = run (step_outcome (transData ax) (facecolor ax) labels offset align
                      end_ kwargs il) ax.
Proof.
  unfold label_lines_body, step_outcome, mbind, M_bind, lift.
  destruct (np_index labels _) as [v|]; cbn; [|done].
  destruct (int v) as [z|]; cbn; [|done].
  destruct align; [done|].
  destruct (names_parameter kwargs); [done|]. apply label_line_outcome.
Qed.

Lemma for_each_outcome (segs : list Segment) :
  forall (i : nat) (ax : Axes),
    for_each (label_lines_body labels offset align end_ kwargs)
             (enumerate_from i segs) ax
    = let o := loop_outcome (transData ax) (facecolor ax) labels offset
                            align end_ kwargs i segs in
      (add_texts o.1 ax, o.2).
Proof.
  induction segs as [|seg segs IH]; intros i ax; cbn.
  - by rewrite add_texts_nil.
  - unfold mbind, M_bind. rewrite label_lines_body_outcome.
    destruct (step_outcome _ _ _ _ _ _ _ _) as [t|e]; cbn.
    + rewrite IH. cbn. by rewrite add_texts_cons.
    + by rewrite add_texts_nil.
Qed.

Variables (tr : Transform) (bg : Value).

Lemma step_outcome_Ok (i : nat) (seg : Segment) (t : Text) :
  step_outcome tr bg labels offset align end_ kwargs (i, seg) = Ok t
  <-> exists v z p,
      labels !! i = Some v /\ int v = Ok z /\ align = None
      /\ names_parameter kwargs = false
      /\ kwargs !! "rotation"%string = None
      /\ placement tr bg seg (Some true) end_ (Some offset) kwargs = Ok p
      /\ t = text_of (VInt z) p.
Proof.
  unfold step_outcome, outcome. cbn. rewrite np_index_lookup. split.
  - destruct (labels !! i) as [v|]; cbn; [|discriminate].
    destruct (int v) as [z|] eqn:Hz; cbn; [|discriminate].
    destruct align; [discriminate|].
    destruct (names_parameter kwargs); [discriminate|].
    destruct (placement _ _ _ _ _ _ _) as [p|]; cbn; [|discriminate].
    destruct (kwargs !! _); [discriminate|].
    intros [= <-]. by exists v, z, p.
  - intros (v & z & p & -> & Hz & -> & Hn & Hk & Hp & ->). cbn.
    rewrite Hz. cbn. rewrite Hn, Hp. cbn. by rewrite Hk.
Qed.

(** The texts drawn pair the lines with the labels in order, and the loop
    ends well after the last line or at the first turn that raises. *)
Lemma loop_outcome_spec (segs : list Segment) :
  forall (i : nat) (ts : list Text) (r : Res unit),
    loop_outcome tr bg labels offset align end_ kwargs i segs = (ts, r) ->
    (forall j t, ts !! j = Some t ->
                 exists seg, segs !! j = Some seg
                             /\ step_outcome tr bg labels offset align end_
                                             kwargs ((i + j)%nat, seg) = Ok t)
    /\ match r with
       | Ok _ => length ts = length segs
       | Raise e =>
           exists seg, segs !! length ts = Some seg
                       /\ step_outcome tr bg labels offset align end_ kwargs
                                       ((i + length ts)%nat, seg) = Raise e
       end.
Proof.
  induction segs as [|seg segs IH]; intros i ts r; cbn.
  - intros [= <- <-]. split; [by intros j t; rewrite lookup_nil|done].
  - destruct (step_outcome _ _ _ _ _ _ _ (i, seg)) as [t|e] eqn:Hs.
    + destruct (loop_outcome _ _ _ _ _ _ _ (S i) segs) as [ts' r'] eqn:Hl.
      cbn. intros [= <- <-]. destruct (IH _ _ _ Hl) as [Hp Hr]. split.
      * intros [|j] t'; cbn.
        -- intros [= <-]. exists seg. by rewrite Nat.add_0_r.
        -- intros Hj. destruct (Hp j t' Hj) as (seg' & Hseg & Hstep).
           exists seg'. split; [done|].
           by replace (i + S j)%nat with (S i + j)%nat by lia.
      * destruct r'; cbn; [by rewrite Hr|].
        destruct Hr as (seg' & Hseg & Hstep). exists seg'. split; [done|].
        by replace (i + S (length ts'))%nat with (S i + length ts')%nat
          by lia.
    + intros [= <- <-]. split; [by intros j t; rewrite lookup_nil|].
      exists seg. cbn. by rewrite Nat.add_0_r.
Qed.
End Loop.

(** The loop reads one label per line and no label beyond these. *)
Lemma loop_outcome_labels_ext tr bg (labels labels' : list Scalar) offset
  align end_ kwargs (segs : list Segment) :
  forall i : nat,
    (forall j, (j < length segs)%nat ->
               labels !! (i + j)%nat = labels' !! (i + j)%nat) ->
    loop_outcome tr bg labels offset align end_ kwargs i segs
    = loop_outcome tr bg labels' offset align end_ kwargs i segs.
Proof.
  induction segs as [|seg segs IH]; intros i H; cbn; [done|].
  assert (step_outcome tr bg labels offset align end_ kwargs (i, seg)
          = step_outcome tr bg labels' offset align end_ kwargs (i, seg)) as ->.
  { unfold step_outcome. cbn. rewrite !np_index_lookup.
    specialize (H 0%nat). rewrite Nat.add_0_r in H. rewrite H; [done|cbn; lia]. }
  rewrite (IH (S i)); [done|].
  intros j Hj. replace (S i + j)%nat with (i + S j)%nat by lia.
  apply H. cbn. lia.
Qed.

Lemma label_lines_outcome lines labels offset align end_ kwargs ax :
  label_lines lines labels offset align end_ kwargs ax
  = match default_color lines kwargs with
    | Ok kw =>
        let o := loop_outcome (transData ax) (facecolor ax) labels offset
                              align end_ kw 0 (get_segments lines) in
        (add_texts o.1 ax, o.2)
    | Raise e => (ax, Raise e)
    end.
Proof.
  unfold label_lines, mbind, M_bind, lift.
  destruct (default_color lines kwargs) as [kw|]; [|done].
  apply for_each_outcome.
Qed.

Lemma default_color_names_parameter lines (kwargs kw : gmap string Value) :
  default_color lines kwargs = Ok kw ->
  names_parameter kw = names_parameter kwargs.
Proof.
  unfold default_color. destruct (has_key kwargs "color"); [by intros [= <-]|].
  destruct (np_index _ _); cbn; [|discriminate].
  intros [= <-]. unfold names_parameter.
  by rewrite !has_key_insert_ne.
Qed.

Lemma default_color_rotation lines (kwargs kw : gmap string Value) :
  default_color lines kwargs = Ok kw ->
  kw !! "rotation"%string = kwargs !! "rotation"%string.
Proof.
  unfold default_color. destruct (has_key kwargs "color"); [by intros [= <-]|].
  destruct (np_index _ _); cbn; [|discriminate].
  intros [= <-]. by rewrite lookup_insert_ne.
Qed.

(** ** [label_lines] *)

(** [int] on a float drops the fractional part, toward zero. *)
Lemma trunc_spec (r : R) :
  ((0 <= r -> IZR (trunc r) <= r < IZR (trunc r) + 1)
   /\ (r < 0 -> r <= IZR (trunc r) < r + 1))%R.
Proof.
  unfold trunc. destruct (Rle_dec 0 r) as [Hr|Hr].
  - split; [|lra]. intros _. pose proof (base_Int_part r). lra.
  - split; [lra|]. intros _. pose proof (base_Int_part (- r)).
    rewrite opp_IZR. lra.
Qed.

Lemma trunc_between (r : R) (z : Z) :
  (0 <= r /\ IZR z <= r < IZR z + 1 \/ r < 0 /\ r <= IZR z < r + 1)%R ->
  trunc r = z.
Proof.
  intros H. unfold trunc. destruct (Rle_dec 0 r) as [Hr|Hr].
  - symmetry. apply Int_part_spec. lra.
  - assert (- z = Int_part (- r)) as <-; [|lia].
    apply Int_part_spec. rewrite opp_IZR. lra.
Qed.

Example trunc_two_and_a_half : trunc 2.5 = 2 /\ trunc (-2.5) = -2.
Proof. split; apply trunc_between; lra. Qed.

Section LabelLines.
Variables (lines : LineCollection) (labels : list Scalar) (offset : Z).
Variables (end_ : option string) (kwargs kw : gmap string Value).
Variable ax : Axes.

Hypothesis color : default_color lines kwargs = Ok kw.
Hypothesis no_rotation : kwargs !! "rotation"%string = None.
Hypothesis no_parameter : names_parameter kwargs = false.
Hypothesis placeable :
  forall seg, seg ∈ get_segments lines ->
    exists p, placement (transData ax) (facecolor ax) seg (Some true) end_
                        (Some offset) kw = Ok p.
Hypothesis coercible :
  forall v, v ∈ take (length (get_segments lines)) labels -> exists z, int v = Ok z.

Lemma step_outcome_succeeds (m : nat) (seg : Segment) :
  get_segments lines !! m = Some seg -> (m < length labels)%nat ->
  exists t, step_outcome (transData ax) (facecolor ax) labels offset None
                         end_ kw (m, seg) = Ok t.
Proof.
  intros Hseg Hm.
  destruct (lookup_lt_is_Some_2 labels m Hm) as [v Hv].
  destruct (coercible v) as [z Hz].
  { apply list_elem_of_lookup. exists m.
    rewrite lookup_take_lt; [done|]. by apply lookup_lt_Some in Hseg. }
  destruct (placeable seg) as [p Hp];
    [by apply list_elem_of_lookup; exists m|].
  exists (text_of (VInt z) p). apply step_outcome_Ok.
  exists v, z, p. repeat split; try done.
  - by rewrite (default_color_names_parameter _ _ _ color).
  - by rewrite (default_color_rotation _ _ _ color).
Qed.
End LabelLines.
(** ** One turn of the loop *)

Lemma loop_outcome_cons tr bg labels offset align end_ kwargs (i : nat)
  (seg : Segment) (segs : list Segment) :
  loop_outcome tr bg labels offset align end_ kwargs i (seg :: segs)
  = match step_outcome tr bg labels offset align end_ kwargs (i, seg) with
    | Ok t =>
        let rest := loop_outcome tr bg labels offset align end_ kwargs (S i)
                                 segs in
        (t :: rest.1, rest.2)
    | Raise e => ([], Raise e)
    end.
Proof. done. Qed.

Lemma step_outcome_refused tr bg labels offset align end_ kwargs (i : nat)
  (seg : Segment) (v : Scalar) (e : Error) :
  labels !! i = Some v -> int v = Raise e ->
  step_outcome tr bg labels offset align end_ kwargs (i, seg) = Raise e.
Proof.
  intros H He. unfold step_outcome. cbn. rewrite np_index_lookup, H. cbn.
  by rewrite He.
Qed.

Lemma step_outcome_clash tr bg labels offset end_ kwargs (i : nat)
  (seg : Segment) (v : Scalar) (z : Z) :
  labels !! i = Some v -> int v = Ok z -> names_parameter kwargs = true ->
  step_outcome tr bg labels offset None end_ kwargs (i, seg) = Raise TypeError.
Proof.
  intros H Hz Hn. unfold step_outcome. cbn. rewrite np_index_lookup, H. cbn.
  by rewrite Hz; cbn; rewrite Hn.
Qed.

Lemma step_outcome_align tr bg labels offset (b : bool) end_ kwargs (i : nat)
  (seg : Segment) (v : Scalar) (z : Z) :
  labels !! i = Some v -> int v = Ok z ->
  step_outcome tr bg labels offset (Some b) end_ kwargs (i, seg)
  = Raise TypeError.
Proof.
  intros H Hz. unfold step_outcome. cbn. rewrite np_index_lookup, H. cbn.
  by rewrite Hz.
Qed.

Lemma step_outcome_placed tr bg labels offset end_ kwargs (i : nat)
  (seg : Segment) (v : Scalar) (z : Z) :
  labels !! i = Some v -> int v = Ok z -> names_parameter kwargs = false ->
  step_outcome tr bg labels offset None end_ kwargs (i, seg)
  = outcome tr bg (VInt z) seg (Some true) end_ (Some offset) kwargs.
Proof.
  intros H Hz Hn. unfold step_outcome. cbn. rewrite np_index_lookup, H. cbn.
  by rewrite Hz; cbn; rewrite Hn.
Qed.

(** With the defaults of [label_lines], a line of at least two points gets
    its label at its first point. *)
Lemma step_outcome_first_point tr bg labels (kwargs : gmap string Value)
  (i : nat) (seg : Segment) (v : Scalar) (z : Z) :
  labels !! i = Some v -> int v = Ok z -> names_parameter kwargs = false ->
  kwargs !! "rotation"%string = None ->
  (2 <= length seg)%nat ->
  exists t,
    step_outcome tr bg labels 0 None None kwargs (i, seg) = Ok t
    /\ text_s t = VInt z.
Proof.
  intros H Hz Hn Hr Hlen.
  destruct (placement_in_range seg START 0 ltac:(lia) tr bg true kwargs)
    as [p Hp].
  exists (text_of (VInt z) p). split; [|done].
  apply step_outcome_Ok. by exists v, z, p.
Qed.

(** ** The labels of [label_lines] *)

(** C4, as stated, fails.  With three lines and three labels there are not
    always three results: a label that [int] refuses stops the loop with
    ValueError after one text; so does, with IndexError and no text, a line
    too short for the offset or a collection without a colour, and with
    TypeError a keyword named [label], [rotation] or [align].  The label of
    a result is not the label supplied but what [int] makes of it: 2.5 is
    paired as 2.  And with fewer labels than lines the failure is not always
    the one of the label lookup. *)
Lemma labels_claim_fails :
  ((length (get_segments three_lines) <= length [SInt 10; SNaN; SInt 30])%nat
   /\ exists t,
        label_lines three_lines [SInt 10; SNaN; SInt 30] 0 None None ∅
                    white_axes
        = (add_texts [t] white_axes, Raise ValueError))
  /\ (exists t t' t'',
        label_lines three_lines [SFloat 2.5; SInt 20; SInt 30] 0 None None ∅
                    white_axes
        = (add_texts [t; t'; t''] white_axes, Ok tt)
        /\ text_s t = VInt 2 /\ text_s t <> VFloat 2.5)
  /\ ((length [SNaN] < length (get_segments three_lines))%nat
      /\ label_lines three_lines [SNaN] 0 None None ∅ white_axes
         = (white_axes, Raise ValueError))
  /\ label_lines three_lines [SInt 10; SInt 20; SInt 30] 1 None None ∅
                 white_axes
     = (white_axes, Raise IndexError)
  /\ label_lines three_lines [SInt 10; SInt 20; SInt 30] 0 None None
                 {["label"%string := VInt 1]} white_axes
     = (white_axes, Raise TypeError)
  /\ label_lines three_lines [SInt 10; SInt 20; SInt 30] 0 None None
                 {["rotation"%string := VInt 30]} white_axes
     = (white_axes, Raise TypeError)
  /\ label_lines three_lines [SInt 10; SInt 20; SInt 30] 0 (Some true) None
                 ∅ white_axes
     = (white_axes, Raise TypeError)
  /\ label_lines {| get_segments := [diagonal]; get_color := [] |} [SInt 10]
                 0 None None ∅ white_axes
     = (white_axes, Raise IndexError).
Proof.
  set (kw := <["color"%string := VStr "tan"]> (∅ : gmap string Value)).
  assert (default_color three_lines ∅ = Ok kw) as Hcol by reflexivity.
  assert (names_parameter kw = false) as Hn by reflexivity.
  assert (kw !! "rotation"%string = None) as Hr by reflexivity.
  split; [|split; [|split; [|split; [|split; [|split; [|split]]]]]].
  - split; [cbn; lia|].
    destruct (step_outcome_first_point identity (VStr "white")
                [SInt 10; SNaN; SInt 30] kw 0 diagonal (SInt 10) 10)
      as (t & Ht & _); try done; try (cbn; lia).
    exists t. rewrite label_lines_outcome, Hcol.
    change (get_segments three_lines) with [diagonal; bent; horizontal].
    cbn [transData facecolor white_axes].
    rewrite loop_outcome_cons, Ht, loop_outcome_cons.
    by rewrite (step_outcome_refused _ _ _ _ _ _ _ 1 bent SNaN ValueError).
  - destruct (step_outcome_first_point identity (VStr "white")
                [SFloat 2.5; SInt 20; SInt 30] kw 0 diagonal (SFloat 2.5) 2)
      as (t & Ht & Hs); try done; try (cbn; lia).
    { cbn. f_equal. apply trunc_between. lra. }
    destruct (step_outcome_first_point identity (VStr "white")
                [SFloat 2.5; SInt 20; SInt 30] kw 1 bent (SInt 20) 20)
      as (t' & Ht' & _); try done; try (cbn; lia).
    destruct (step_outcome_first_point identity (VStr "white")
                [SFloat 2.5; SInt 20; SInt 30] kw 2 horizontal (SInt 30) 30)
      as (t'' & Ht'' & _); try done; try (cbn; lia).
    exists t, t', t''. split; [|split; [done|by rewrite Hs]].
    rewrite label_lines_outcome, Hcol.
    change (get_segments three_lines) with [diagonal; bent; horizontal].
    cbn [transData facecolor white_axes].
    by rewrite loop_outcome_cons, Ht, loop_outcome_cons, Ht',
      loop_outcome_cons, Ht''.
  - split; [cbn; lia|].
    rewrite label_lines_outcome, Hcol.
    change (get_segments three_lines) with [diagonal; bent; horizontal].
    rewrite loop_outcome_cons.
    rewrite (step_outcome_refused _ _ _ _ _ _ _ 0 diagonal SNaN ValueError)
      by done.
    cbn. by rewrite add_texts_nil.
  - rewrite label_lines_outcome, Hcol.
    change (get_segments three_lines) with [diagonal; bent; horizontal].
    rewrite loop_outcome_cons.
    rewrite (step_outcome_placed _ _ _ _ _ _ 0 diagonal (SInt 10) 10)
      by done.
    unfold outcome. cbn [transData facecolor white_axes].
    assert (placement identity (VStr "white") diagonal (Some true) None
                      (Some 1) kw = Raise IndexError) as ->.
    { apply (placement_slope_Raise identity (VStr "white") kw diagonal START
               1 (1, 1)%R); [done|].
      intros H. apply (slope_in_range diagonal START 1) in H; cbn in H; lia. }
    cbn. by rewrite add_texts_nil.
  - rewrite label_lines_outcome.
    assert (default_color three_lines {["label"%string := VInt 1]}
            = Ok (<["color"%string := VStr "tan"]>
                    {["label"%string := VInt 1]})) as -> by reflexivity.
    change (get_segments three_lines) with [diagonal; bent; horizontal].
    rewrite loop_outcome_cons.
    rewrite (step_outcome_clash _ _ _ _ _ _ 0 diagonal (SInt 10) 10)
      by done.
    cbn. by rewrite add_texts_nil.
  - rewrite label_lines_outcome.
    assert (default_color three_lines {["rotation"%string := VInt 30]}
            = Ok (<["color"%string := VStr "tan"]>
                    {["rotation"%string := VInt 30]})) as -> by reflexivity.
    change (get_segments three_lines) with [diagonal; bent; horizontal].
    rewrite loop_outcome_cons.
    rewrite (step_outcome_placed _ _ _ _ _ _ 0 diagonal (SInt 10) 10)
      by done.
    unfold outcome.
    cbn [transData facecolor white_axes].
    assert (exists p,
               placement identity (VStr "white") diagonal (Some true) None
                 (Some 0) (<["color"%string := VStr "tan"]>
                             {["rotation"%string := VInt 30]}) = Ok p)
      as [p ->] by (apply (placement_in_range diagonal START 0); cbn; lia).
    cbn. by rewrite add_texts_nil.
  - rewrite label_lines_outcome, Hcol.
    change (get_segments three_lines) with [diagonal; bent; horizontal].
    rewrite loop_outcome_cons.
    rewrite (step_outcome_align _ _ _ _ _ _ _ 0 diagonal (SInt 10) 10)
      by done.
    cbn. by rewrite add_texts_nil.
  - by rewrite label_lines_outcome.
Qed.

(** C4, amended: over n polylines that can all be labelled at the offset,
    with a colour for the labels, no keyword that meets an argument of the
    call ([rotation], or the name of a positional parameter of
    [label_line]) and labels in use that [int] accepts, [label_lines] with
    at least n labels draws exactly n texts, the i-th one for the i-th line
    with [int] of the i-th label, each as [label_line] draws it with align
    on; labels beyond the n-th are not looked at; with fewer labels than
    lines it raises IndexError at the label lookup, after one text per
    label. *)
Theorem label_lines_pairs_in_order (lines : LineCollection)
  (labels : list Scalar) (offset : Z) (end_ : option string)
  (kwargs kw : gmap string Value) (ax : Axes) :
  let segs := get_segments lines in
  default_color lines kwargs = Ok kw ->
  kwargs !! "rotation"%string = None ->
  names_parameter kwargs = false ->
  (forall seg, seg ∈ segs ->
     exists p, placement (transData ax) (facecolor ax) seg (Some true) end_
                         (Some offset) kw = Ok p) ->
  (forall v, v ∈ take (length segs) labels -> exists z, int v = Ok z) ->
  exists ts : list Text,
    (forall i t,
        ts !! i = Some t ->
        exists seg v z,
          segs !! i = Some seg /\ labels !! i = Some v /\ int v = Ok z
          /\ text_s t = VInt z
          /\ label_line (VInt z) seg (Some true) end_ (Some offset) kw ax
             = (draw t ax, Ok tt))
    /\ ((length segs <= length labels)%nat ->
        length ts = length segs
        /\ forall labels',
            take (length segs) labels' = take (length segs) labels ->
            label_lines lines labels' offset None end_ kwargs ax
            = (add_texts ts ax, Ok tt))
    /\ ((length labels < length segs)%nat ->
        length ts = length labels
        /\ label_lines lines labels offset None end_ kwargs ax
           = (add_texts ts ax, Raise IndexError)).
Proof.
  intros segs Hcolor Hrot Hpar Hplace Hint.
  set (tr := transData ax). set (bg := facecolor ax).
  assert (kw !! "rotation"%string = None) as Hrot'
    by by rewrite (default_color_rotation _ _ _ Hcolor).
  destruct (loop_outcome tr bg labels offset None end_ kw 0 segs)
    as [ts r] eqn:Hloop.
  destruct (loop_outcome_spec labels offset None end_ kw tr bg segs 0 ts r
              Hloop) as [Hpairs Hend].
  pose proof (step_outcome_succeeds lines labels offset end_ kwargs kw ax
                Hcolor Hrot Hpar Hplace Hint) as Hstep.
  assert (forall i, (i < length ts)%nat -> (i < length labels)%nat) as Hlab.
  { intros i Hi. destruct (lookup_lt_is_Some_2 ts i Hi) as [t Ht].
    destruct (Hpairs i t Ht) as (seg & _ & Hs).
    apply step_outcome_Ok in Hs as (v & _ & _ & Hv & _).
    by apply lookup_lt_Some in Hv. }
  exists ts. split; [|split].
  - intros i t Ht. destruct (Hpairs i t Ht) as (seg & Hseg & Hs).
    apply step_outcome_Ok in Hs as (v & z & p & Hv & Hz & _ & _ & _ & Hp & ->).
    exists seg, v, z. repeat split; try done.
    by apply label_line_draws.
  - intros Hlen. destruct r as [[]|e].
    + split; [done|]. intros labels' Htake.
      rewrite label_lines_outcome, Hcolor.
      rewrite (loop_outcome_labels_ext _ _ labels' labels).
      * fold tr bg segs. by rewrite Hloop.
      * intros j Hj. cbn.
        rewrite <- (lookup_take_lt labels' (length segs) j Hj), Htake.
        by apply lookup_take_lt.
    + destruct Hend as (seg & Hseg & Hs).
      destruct (Hstep (length ts) seg Hseg) as [t Ht].
      * apply lookup_lt_Some in Hseg. fold segs in Hlen. lia.
      * fold tr bg in Ht. cbn in Hs. congruence.
  - intros Hlen. destruct r as [[]|e].
    + specialize (Hlab (length labels)). lia.
    + destruct Hend as (seg & Hseg & Hs). cbn in Hs.
      destruct (decide (length ts < length labels)%nat) as [Hlt|Hge].
      * destruct (Hstep (length ts) seg Hseg Hlt) as [t Ht].
        fold tr bg in Ht. congruence.
      * assert (length ts = length labels) as Hts.
        { destruct (decide (length labels < length ts)%nat) as [Hgt|?];
            [|lia]. specialize (Hlab (length labels) Hgt). lia. }
        split; [done|].
        rewrite label_lines_outcome, Hcolor. fold tr bg segs.
        rewrite Hloop. cbn. do 2 f_equal.
        unfold step_outcome in Hs. cbn in Hs.
        rewrite np_index_lookup, (proj2 (lookup_ge_None labels (length ts)))
          in Hs by lia.
        cbn in Hs. congruence.
Qed.

Lemma label_lines_pairs_in_order_witness :
  default_color three_lines ∅ = Ok (<["color"%string := VStr "tan"]> ∅)
  /\ exists ts : list Text,
       length ts = 3%nat
       /\ label_lines three_lines [SInt 10; SFloat 20; SInt 30] 0 None None ∅
                      white_axes
          = (add_texts ts white_axes, Ok tt).
Proof.
  split; [reflexivity|].
  destruct (label_lines_pairs_in_order three_lines
              [SInt 10; SFloat 20; SInt 30] 0 None ∅
              (<["color"%string := VStr "tan"]> ∅) white_axes)
    as (ts & _ & Hall & _).
  - reflexivity.
  - reflexivity.
  - reflexivity.
  - intros seg Hin. cbn in Hin.
    repeat (apply elem_of_cons in Hin as [->|Hin]);
      [| | | by apply elem_of_nil in Hin];
      apply (placement_in_range _ START 0); cbn; lia.
  - intros v Hin. cbn in Hin.
    repeat (apply elem_of_cons in Hin as [->|Hin]);
      [| | | by apply elem_of_nil in Hin]; eexists; reflexivity.
  - destruct Hall as [Hlen Hrun]; [cbn; lia|].
    exists ts. split; [exact Hlen|]. apply Hrun. reflexivity.
Defined.

(** C10: [label_lines] passes [int(labels[i])] to [label_line], not the
    label as supplied.  Every text drawn carries the integer that [int]
    makes of its label, a float cut toward zero; a label among those of the
    lines that [int] refuses makes [label_lines] fail, with no text drawn
    for its line or for a later one.  And the texts are drawn: when the
    lines can be labelled and no keyword meets an argument of the call, a
    line whose label and all earlier labels [int] accepts gets its text,
    the one [label_line] draws for the integer, and at the first label that
    [int] refuses [label_lines] stops with the error of [int], after one
    text for each line before. *)
Theorem label_lines_coerces_labels (lines : LineCollection)
  (labels : list Scalar) (offset : Z) (align : option bool)
  (end_ : option string) (kwargs : gmap string Value) (ax : Axes) :
  exists ts : list Text,
    (label_lines lines labels offset align end_ kwargs ax).1 = add_texts ts ax
    /\ (forall i t,
           ts !! i = Some t ->
           exists v z,
             labels !! i = Some v /\ int v = Ok z /\ text_s t = VInt z
             /\ forall r, v = SFloat r ->
                  z = trunc r
                  /\ ((0 <= r -> IZR z <= r < IZR z + 1)
                      /\ (r < 0 -> r <= IZR z < r + 1))%R)
    /\ (forall i v e,
           (i < length (get_segments lines))%nat ->
           labels !! i = Some v -> int v = Raise e ->
           (length ts <= i)%nat
           /\ (label_lines lines labels offset align end_ kwargs ax).2
              <> Ok tt)
    /\ (forall kw : gmap string Value,
           align = None ->
           default_color lines kwargs = Ok kw ->
           kwargs !! "rotation"%string = None ->
           names_parameter kwargs = false ->
           (forall seg, seg ∈ get_segments lines ->
              exists p, placement (transData ax) (facecolor ax) seg
                                  (Some true) end_ (Some offset) kw = Ok p) ->
           forall i seg v,
             get_segments lines !! i = Some seg ->
             labels !! i = Some v ->
             (forall j w, (j < i)%nat -> labels !! j = Some w ->
                          exists z, int w = Ok z) ->
             (forall z, int v = Ok z ->
                exists t,
                  ts !! i = Some t /\ text_s t = VInt z
                  /\ label_line (VInt z) seg (Some true) end_ (Some offset)
                                kw ax = (draw t ax, Ok tt))
             /\ (forall e, int v = Raise e ->
                   length ts = i
                   /\ (label_lines lines labels offset align end_ kwargs
                                   ax).2 = Raise e)).
Proof.
  rewrite label_lines_outcome.
  destruct (default_color lines kwargs) as [kw|e0] eqn:Hcol.
  2:{ exists []. rewrite add_texts_nil. split; [done|].
      split; [by intros i t; rewrite lookup_nil|].
      split; [|discriminate].
      intros i v e _ _ _. cbn. split; [lia|done]. }
  destruct (loop_outcome (transData ax) (facecolor ax) labels offset align
              end_ kw 0 (get_segments lines)) as [ts r] eqn:Hloop.
  destruct (loop_outcome_spec _ _ _ _ _ _ _ _ _ _ _ Hloop) as [Hpairs Hend].
  assert (forall i t, ts !! i = Some t ->
            exists v z, labels !! i = Some v /\ int v = Ok z
                        /\ text_s t = VInt z) as Hint.
  { intros i t Ht. destruct (Hpairs i t Ht) as (seg & _ & Hs).
    apply step_outcome_Ok in Hs as (v & z & p & Hv & Hz & _ & _ & _ & _ & ->).
    by exists v, z. }
  exists ts. cbn. split; [done|]. split; [|split].
  - intros i t Ht. destruct (Hint i t Ht) as (v & z & Hv & Hz & Hs).
    exists v, z. split; [done|]. split; [done|]. split; [done|].
    intros x ->. cbn in Hz. injection Hz as <-.
    split; [done|apply trunc_spec].
  - intros i v e Hi Hv He.
    assert (length ts <= i)%nat as Hle.
    { destruct (decide (i < length ts)%nat) as [Hlt|?]; [|lia].
      destruct (lookup_lt_is_Some_2 ts i Hlt) as [t Ht].
      destruct (Hint i t Ht) as (v' & z & Hv' & Hz & _). congruence. }
    split; [done|]. intros ->. lia.
  - intros kw' -> [= <-] Hrot Hpar Hplace i seg v Hseg Hv Hbefore.
    assert (names_parameter kw = false) as Hpar'
      by by rewrite (default_color_names_parameter _ _ _ Hcol).
    assert (kw !! "rotation"%string = None) as Hrot'
      by by rewrite (default_color_rotation _ _ _ Hcol).
    (* a turn of the loop with a label that int accepts draws its text *)
    assert (forall m sg w z,
               get_segments lines !! m = Some sg -> labels !! m = Some w ->
               int w = Ok z ->
               exists p,
                 placement (transData ax) (facecolor ax) sg (Some true) end_
                           (Some offset) kw = Ok p
                 /\ step_outcome (transData ax) (facecolor ax) labels offset
                                 None end_ kw (m, sg)
                    = Ok (text_of (VInt z) p)) as Hturn.
    { intros m sg w z Hsg Hw Hz.
      destruct (Hplace sg) as [p Hp]; [by apply list_elem_of_lookup; exists m|].
      exists p. split; [done|]. apply step_outcome_Ok. by exists w, z, p. }
    (* the text of line i, once it is known to be there *)
    assert (forall t z, ts !! i = Some t -> int v = Ok z ->
               text_s t = VInt z
               /\ label_line (VInt z) seg (Some true) end_ (Some offset) kw ax
                  = (draw t ax, Ok tt)) as Hthere.
    { intros t z Ht Hz. destruct (Hpairs i t Ht) as (seg' & Hseg' & Hs).
      cbn in Hs. assert (seg' = seg) as -> by congruence.
      destruct (Hturn i seg v z Hseg Hv Hz) as (p & Hp & Hs').
      assert (t = text_of (VInt z) p) as -> by congruence.
      split; [done|]. by apply label_line_draws. }
    (* the loop does not stop before line i *)
    assert (i <= length ts)%nat as Hreach.
    { destruct (decide (length ts < i)%nat) as [Hlt|?]; [|lia].
      destruct r as [[]|e'].
      - apply lookup_lt_Some in Hseg. lia.
      - destruct Hend as (sg & Hsg & Hs). cbn in Hs.
        assert (length ts < length labels)%nat as Hlab
          by (apply lookup_lt_Some in Hv; lia).
        destruct (lookup_lt_is_Some_2 labels _ Hlab) as [w Hw].
        destruct (Hbefore _ w Hlt Hw) as [z Hz].
        destruct (Hturn _ sg w z Hsg Hw Hz) as (p & _ & Hs'). congruence. }
    split.
    + intros z Hz.
      destruct (decide (i < length ts)%nat) as [Hlt|Hge].
      * destruct (lookup_lt_is_Some_2 ts i Hlt) as [t Ht].
        exists t. split; [done|]. by apply Hthere.
      * assert (length ts = i) as Hi by lia.
        destruct r as [[]|e'].
        -- apply lookup_lt_Some in Hseg. lia.
        -- destruct Hend as (sg & Hsg & Hs). cbn in Hs. rewrite Hi in *.
           assert (sg = seg) as -> by congruence.
           destruct (Hturn i seg v z Hseg Hv Hz) as (p & _ & Hs').
           congruence.
    + intros e He.
      assert (length ts = i) as Hi.
      { destruct (decide (i < length ts)%nat) as [Hlt|?]; [|lia].
        destruct (lookup_lt_is_Some_2 ts i Hlt) as [t Ht].
        destruct (Hint i t Ht) as (v' & z & Hv' & Hz & _). congruence. }
      split; [done|].
      destruct r as [[]|e'].
      * apply lookup_lt_Some in Hseg. lia.
      * destruct Hend as (sg & Hsg & Hs). cbn in Hs. rewrite Hi in *.
        rewrite (step_outcome_refused _ _ _ _ _ _ _ i sg v e Hv He) in Hs.
        congruence.
Qed.

Lemma label_lines_coerces_labels_witness :
  default_color three_lines ∅ = Ok (<["color"%string := VStr "tan"]> ∅)
  /\ int (SFloat 2.5) = Ok 2
  /\ int SNaN = Raise ValueError
  /\ exists t : Text,
       label_lines three_lines [SFloat 2.5; SNaN] 0 None None ∅ white_axes
       = (add_texts [t] white_axes, Raise ValueError)
       /\ text_s t = VInt 2.
Proof.
  assert (int (SFloat 2.5) = Ok 2) as H2.
  { cbn. f_equal. apply trunc_between. lra. }
  split; [reflexivity|]. split; [exact H2|]. split; [reflexivity|].
  destruct (label_lines_coerces_labels three_lines [SFloat 2.5; SNaN] 0 None
              None ∅ white_axes) as (ts & Hax & _ & _ & Hdrawn).
  specialize (Hdrawn (<["color"%string := VStr "tan"]> ∅) eq_refl eq_refl
                eq_refl eq_refl).
  assert (forall seg, seg ∈ get_segments three_lines ->
            exists p, placement (transData white_axes) (facecolor white_axes)
                        seg (Some true) None (Some 0)
                        (<["color"%string := VStr "tan"]> ∅) = Ok p) as Hpl.
  { intros seg Hin. cbn in Hin.
    repeat (apply elem_of_cons in Hin as [->|Hin]);
      [| | | by apply elem_of_nil in Hin];
      apply (placement_in_range _ START 0); cbn; lia. }
  specialize (Hdrawn Hpl).
  destruct (Hdrawn 0%nat diagonal (SFloat 2.5) eq_refl eq_refl) as [Hfirst _];
    [intros j w Hj; lia|].
  destruct (Hfirst 2 H2) as (t & Ht & Hs & _).
  destruct (Hdrawn 1%nat bent SNaN eq_refl eq_refl) as [_ Hsecond].
  { intros [|j] w Hj; [|lia]. intros [= <-]. by exists 2. }
  destruct (Hsecond ValueError eq_refl) as [Hlen Hres].
  exists t. split; [|exact Hs].
  destruct ts as [|t0 [|t1 ts]]; try discriminate.
  cbn in Ht. injection Ht as ->.
  destruct (label_lines three_lines [SFloat 2.5; SNaN] 0 None None ∅
              white_axes) as [ax' r].
  cbn in Hax, Hres. by rewrite Hax, Hres.
Defined.

Lemma label_line_deterministic_witness :
  transData white_axes = transData used_axes
  /\ facecolor white_axes = facecolor used_axes
  /\ exists r : Res Text,
       label_line (VInt 7) diagonal None None None ∅ white_axes
       = run r white_axes
       /\ label_line (VInt 7) diagonal None None None ∅ used_axes
          = run r used_axes.
Proof.
  split; [reflexivity|]. split; [reflexivity|].
  apply (proj1 (label_line_deterministic (VInt 7) diagonal None None None ∅));
    reflexivity.
Defined.

(** * Further properties of [label_line] and [label_lines] *)

(** ** The keywords of the text box *)

Lemma has_key_false (m : gmap string Value) k :
  has_key m k = false <-> m !! k = None.
Proof.
  unfold has_key. rewrite bool_decide_eq_false, <- eq_None_not_Some. done.
Qed.

Lemma has_key_Some (m : gmap string Value) k v :
  m !! k = Some v -> has_key m k = true.
Proof. intros H. apply bool_decide_eq_true. eauto. Qed.

Lemma setdefault_lookup (m : gmap string Value) k v k' :
  setdefault k v m !! k'
  = match m !! k' with
    | Some w => Some w
    | None => if decide (k' = k) then Some v else None
    end.
Proof.
  unfold setdefault. destruct (has_key m k) eqn:Hk.
  - destruct (m !! k') eqn:Hk'; [done|].
    case_decide; [|done]. subst k'.
    apply has_key_false in Hk'. congruence.
  - apply has_key_false in Hk.
    destruct (decide (k' = k)) as [->|Hne].
    + by rewrite lookup_insert_eq, Hk.
    + rewrite lookup_insert_ne by done. by destruct (m !! k').
Qed.

Lemma text_defaults_lookup bg (kwargs : gmap string Value) (k : string) :
  text_defaults bg kwargs !! k
  = match kwargs !! k with
    | Some v => Some v
    | None => keyword_default bg kwargs k
    end.
Proof.
  unfold text_defaults, keyword_default.
  rewrite !setdefault_lookup.
  set (m1 := if negb (has_key kwargs "horizontalalignment") && _ then _ else _).
  set (m2 := if negb (has_key m1 "verticalalignment") && _ then _ else _).
  assert (forall k', m1 !! k'
            = match kwargs !! k' with
              | Some v => Some v
              | None => if decide (k' = "ha"%string) then
                          if has_key kwargs "horizontalalignment" then None
                          else Some (VStr "center")
                        else None
              end) as H1.
  { intros k'. subst m1.
    destruct (has_key kwargs "horizontalalignment"); cbn.
    - destruct (kwargs !! k'); [done|]. by case_decide.
    - destruct (has_key kwargs "ha") eqn:Hha; cbn.
      + destruct (kwargs !! k') eqn:Hk'; [done|]. case_decide; [|done].
        subst k'. apply has_key_false in Hk'. congruence.
      + apply has_key_false in Hha. destruct (decide (k' = "ha"%string)) as [->|?].
        * by rewrite lookup_insert_eq, Hha.
        * rewrite lookup_insert_ne by done. by destruct (kwargs !! k'). }
  assert (has_key m1 "verticalalignment" = has_key kwargs "verticalalignment")
    as Hva1.
  { unfold has_key. rewrite H1. destruct (kwargs !! _); [done|].
    by rewrite decide_False. }
  assert (forall k', m2 !! k'
            = match m1 !! k' with
              | Some v => Some v
              | None => if decide (k' = "va"%string) then
                          if has_key kwargs "verticalalignment" then None
                          else Some (VStr "center")
                        else None
              end) as H2.
  { intros k'. subst m2. rewrite Hva1.
    destruct (has_key kwargs "verticalalignment"); cbn.
    - destruct (m1 !! k'); [done|]. by case_decide.
    - destruct (has_key m1 "va") eqn:Hva; cbn.
      + destruct (m1 !! k') eqn:Hk'; [done|]. case_decide; [|done].
        subst k'. apply has_key_false in Hk'. congruence.
      + apply has_key_false in Hva. destruct (decide (k' = "va"%string)) as [->|?].
        * by rewrite lookup_insert_eq, Hva.
        * rewrite lookup_insert_ne by done. by destruct (m1 !! k'). }
  assert (forall k', (if has_key m2 "backgroundcolor" then m2
                      else <["backgroundcolor"%string := bg]> m2) !! k'
                     = setdefault "backgroundcolor" bg m2 !! k') as H3 by done.
  rewrite H3, setdefault_lookup, H2, H1.
  destruct (kwargs !! k); [done|].
  repeat case_decide; subst; try discriminate;
    repeat match goal with
           | |- context [has_key ?m ?k'] => destruct (has_key m k')
           end; done.
Qed.

(** ** The range of the angle *)

Lemma atan_nonpos (t : R) : (t <= 0)%R -> (atan t <= 0)%R.
Proof.
  intros [Ht| ->]; [|rewrite atan_0; lra].
  pose proof (atan_increasing t 0 Ht). rewrite atan_0 in *. lra.
Qed.

Lemma atan_pos (t : R) : (0 < t)%R -> (0 < atan t)%R.
Proof. intros Ht. pose proof (atan_increasing 0 t Ht). by rewrite atan_0 in *. Qed.

Lemma atan2_bounds (y x : R) : (- PI < atan2 y x <= PI)%R.
Proof.
  pose proof PI_RGT_0 as Hpi. unfold atan2.
  destruct (Rlt_dec 0 x) as [Hx|Hx].
  { pose proof (atan_bound (y / x)). lra. }
  destruct (Rlt_dec x 0) as [Hx'|Hx'].
  - pose proof (atan_bound (y / x)) as Hb.
    destruct (Rle_dec 0 y) as [Hy|Hy].
    + assert (y / x <= 0)%R as Hq.
      { unfold Rdiv. assert (/ x < 0)%R by by apply Rinv_lt_0_compat. nra. }
      pose proof (atan_nonpos _ Hq). lra.
    + assert (0 < y / x)%R as Hq.
      { unfold Rdiv. assert (/ x < 0)%R by by apply Rinv_lt_0_compat. nra. }
      pose proof (atan_pos _ Hq). lra.
  - destruct (Rlt_dec 0 y); [lra|]. destruct (Rlt_dec y 0); lra.
Qed.

Lemma degrees_bounds (y x : R) : (-180 < degrees (atan2 y x) <= 180)%R.
Proof.
  pose proof PI_RGT_0 as Hpi. pose proof (atan2_bounds y x) as [Hl Hu].
  unfold degrees.
  assert (0 < 180 / PI)%R as Hk by (apply Rdiv_lt_0_compat; lra).
  assert (PI * (180 / PI) = 180)%R as E by (field; lra).
  split.
  - apply (Rmult_lt_compat_r _ _ _ Hk) in Hl. lra.
  - apply (Rmult_le_compat_r (180 / PI)) in Hu; lra.
Qed.

Lemma atan2_0_0 : atan2 0 0 = 0%R.
Proof.
  unfold atan2. destruct (Rlt_dec 0 0); [lra|].
  by destruct (Rlt_dec 0 0); [lra|].
Qed.

Lemma label_line_Ok_inv label seg align end_ offset kwargs ax ax' :
  label_line label seg align end_ offset kwargs ax = (ax', Ok tt) ->
  exists p,
    placement (transData ax) (facecolor ax) seg align end_ offset kwargs = Ok p
    /\ kwargs !! "rotation"%string = None
    /\ ax' = draw (text_of label p) ax.
Proof.
  rewrite label_line_run.
  destruct (placement _ _ _ _ _ _ _) as [p|]; [|discriminate].
  destruct (kwargs !! "rotation"%string); [discriminate|].
  intros [= <-]. by exists p.
Qed.

Lemma placement_align_inv tr bg kwargs (seg : Segment) (e : End) (offset : Z) p :
  placement tr bg seg (Some true) (Some (end_keyword e)) (Some offset) kwargs
  = Ok p ->
  exists xy p1 p0 : Point,
    np_index seg (anchor_index e offset) = Ok xy
    /\ np_index seg (ip_index e offset) = Ok p1
    /\ np_index seg (ip_index e offset - 1) = Ok p0
    /\ p = (xy,
            let a := transform_angles tr
                       (degrees (atan2 (p1.2 - p0.2) (p1.1 - p0.1))) xy in
            match e with START => a | END => (a - 180)%R end,
            text_defaults bg kwargs).
Proof.
  intros Hp.
  destruct (placement_End_cases tr bg kwargs seg e offset true)
    as [[_ [[xy Ha] Hs]]|[Hr _]]; [|congruence].
  destruct (Hs eq_refl) as (p1 & p0 & H1 & H0).
  exists xy, p1, p0. repeat split; try done.
  rewrite (placement_align _ _ _ seg e offset _ _ _ Ha H1 H0) in Hp.
  congruence.
Qed.

(** X1: the text that [label_line] draws carries the caller's label and
    every keyword of the caller unchanged; a keyword the caller left out
    gets the default of lines 125-146 if it has one, the two alignments
    only when neither spelling of the keyword was given. *)
Theorem label_line_keywords (label : Value) (seg : Segment)
  (align : option bool) (end_ : option string) (offset : option Z)
  (kwargs : gmap string Value) (ax ax' : Axes) :
  label_line label seg align end_ offset kwargs ax = (ax', Ok tt) ->
  exists t,
    ax' = draw t ax
    /\ text_s t = label
    /\ forall k,
        text_kwargs t !! k
        = match kwargs !! k with
          | Some v => Some v
          | None => keyword_default (facecolor ax) kwargs k
          end.
Proof.
  intros H. apply label_line_Ok_inv in H as (p & Hp & _ & ->).
  exists (text_of label p). split; [done|]. split; [done|].
  intros k. cbn. rewrite (placement_kwargs _ _ _ _ _ _ _ _ Hp).
  apply text_defaults_lookup.
Qed.

Lemma label_line_keywords_witness :
  label_line (VInt 7) diagonal None None None
             {["ha"%string := VStr "left"]} white_axes
  = (draw (text_of (VInt 7)
             ((0, 0)%R,
              transform_angles identity
                (degrees (atan2 (1 - 0) (1 - 0))) (0, 0)%R,
              text_defaults (VStr "white") {["ha"%string := VStr "left"]}))
          white_axes, Ok tt)
  /\ exists t,
       text_kwargs t !! "ha"%string = Some (VStr "left")
       /\ text_kwargs t !! "zorder"%string = Some (VFloat 1.5).
Proof.
  assert (label_line (VInt 7) diagonal None None None
            {["ha"%string := VStr "left"]} white_axes
          = (draw (text_of (VInt 7)
               ((0, 0)%R,
                transform_angles identity
                  (degrees (atan2 (1 - 0) (1 - 0))) (0, 0)%R,
                text_defaults (VStr "white") {["ha"%string := VStr "left"]}))
            white_axes, Ok tt)) as Hrun by reflexivity.
  split; [exact Hrun|].
  destruct (label_line_keywords _ _ _ _ _ _ _ _ Hrun) as (t & _ & _ & Hk).
  exists t. split; [exact (Hk "ha"%string) | exact (Hk "zorder"%string)].
Defined.

(** X2: the data-space angle that [label_line] computes lies between -180
    and 180 degrees, both ends included (a slope along negative x has the
    angle 180, or -180 when its dy is a negative zero); under the identity
    transform the rotation of an aligned label therefore lies between -180
    and 180 at the bottom end and between -360 and 0 at the top end. *)
Theorem rotation_range (label : Value) (seg : Segment) (e : End) (offset : Z)
  (kwargs : gmap string Value) (bg : Value) (ts : list Text) (ax' : Axes) :
  let ax := {| transData := identity; facecolor := bg; texts := ts |} in
  (forall ip a, slope_angle seg ip = Ok a -> (-180 <= a <= 180)%R)
  /\ (label_line label seg (Some true) (Some (end_keyword e)) (Some offset)
                 kwargs ax = (ax', Ok tt) ->
      exists t,
        ax' = draw t ax
        /\ match e with
           | START => (-180 <= text_rotation t <= 180)%R
           | END => (-360 <= text_rotation t <= 0)%R
           end).
Proof.
  intros ax. split.
  - intros ip a. unfold slope_angle.
    destruct (slope seg ip) as [d|]; [|discriminate].
    cbn. intros [= <-]. pose proof (degrees_bounds d.2 d.1). lra.
  - intros H. apply label_line_Ok_inv in H as (p & Hp & _ & ->).
    apply placement_align_inv in Hp as (xy & p1 & p0 & _ & _ & _ & ->).
    eexists. split; [done|]. cbn.
    pose proof (degrees_bounds (p1.2 - p0.2) (p1.1 - p0.1)).
    destruct e; lra.
Qed.

Lemma rotation_range_witness :
  slope_angle diagonal 1 = Ok (degrees (atan2 (1 - 0) (1 - 0)))
  /\ (-180 <= degrees (atan2 (1 - 0) (1 - 0)) <= 180)%R.
Proof.
  split; [reflexivity|].
  apply (proj1 (rotation_range (VInt 7) diagonal START 0 ∅ (VStr "white") []
                  white_axes) 1).
  reflexivity.
Defined.

(** X3: a tangent pair of two equal points does not fail: the data-space
    angle is 0 (there is no division), so the label is rotated like a label
    on a line running in the direction of x. *)
Theorem coincident_points_angle_0 (tr : Transform) (bg : Value)
  (kwargs : gmap string Value) (seg : Segment) (e : End) (offset : Z)
  (xy p : Point) :
  np_index seg (anchor_index e offset) = Ok xy ->
  np_index seg (ip_index e offset) = Ok p ->
  np_index seg (ip_index e offset - 1) = Ok p ->
  slope_angle seg (ip_index e offset) = Ok 0%R
  /\ placement tr bg seg (Some true) (Some (end_keyword e)) (Some offset)
               kwargs
     = Ok (xy,
           match e with
           | START => transform_angles tr 0 xy
           | END => (transform_angles tr 0 xy - 180)%R
           end,
           text_defaults bg kwargs).
Proof.
  intros Ha H1 H0.
  assert (degrees (atan2 (p.2 - p.2) (p.1 - p.1)) = 0%R) as E.
  { rewrite !Rminus_diag, atan2_0_0. unfold degrees. lra. }
  split.
  - unfold slope_angle. rewrite (slope_Ok seg _ p p H1 H0). cbn. by rewrite E.
  - rewrite (placement_align tr bg kwargs seg e offset _ _ _ Ha H1 H0).
    cbn. by rewrite E.
Qed.

Lemma coincident_points_angle_0_witness :
  np_index [(2, 3); (2, 3)]%R (anchor_index START 0) = Ok (2, 3)%R
  /\ slope_angle [(2, 3); (2, 3)]%R (ip_index START 0) = Ok 0%R.
Proof.
  split; [reflexivity|].
  apply (coincident_points_angle_0 identity (VStr "white") ∅
           [(2, 3); (2, 3)]%R START 0 (2, 3)%R (2, 3)%R); reflexivity.
Defined.

(** ** The two ends of a line *)

Lemma np_index_reverse {A : Type} (a : list A) (i : Z) :
  0 <= i < Z.of_nat (length a) ->
  np_index (reverse a) i = np_index a (-1 - i).
Proof.
  intros Hi.
  destruct (lookup_lt_is_Some_2 a (length a - S (Z.to_nat i))) as [v Hv];
    [lia|].
  rewrite (np_index_nonneg (reverse a) i v); [|lia|].
  - symmetry. replace i with (Z.of_nat (Z.to_nat i)) at 1 by lia.
    apply np_index_from_end; [lia|].
    by replace (length a - 1 - Z.to_nat i)%nat
      with (length a - S (Z.to_nat i))%nat by lia.
  - rewrite reverse_lookup by lia. done.
Qed.

(** X4: a label at the top end of a line is placed like a label at the
    bottom end of the reversed line.  For an in-range offset the two
    anchors are the same point and the two slope vectors are opposite; and
    with align off [label_line] computes one and the same placement in both
    cases: that point, rotation 0 and the same keywords. *)
Theorem top_label_is_bottom_label_of_reverse (tr : Transform) (bg : Value)
  (kwargs : gmap string Value) (seg : Segment) (offset : Z) :
  0 <= offset <= Z.of_nat (length seg) - 2 ->
  exists xy p0 : Point,
    np_index seg (anchor_index END offset) = Ok xy
    /\ np_index (reverse seg) (anchor_index START offset) = Ok xy
    /\ tangent_used seg END offset = Ok ((xy.1 - p0.1)%R, (xy.2 - p0.2)%R)
    /\ tangent_used (reverse seg) START offset
       = Ok ((p0.1 - xy.1)%R, (p0.2 - xy.2)%R)
    /\ placement tr bg seg (Some false) (Some "top"%string) (Some offset)
                 kwargs
       = Ok (xy, 0%R, text_defaults bg kwargs)
    /\ placement tr bg (reverse seg) (Some false) (Some "bottom"%string)
                 (Some offset) kwargs
       = placement tr bg seg (Some false) (Some "top"%string) (Some offset)
                   kwargs.
Proof.
  intros Ho.
  destruct (proj2 (anchor_in_range seg END offset (proj1 Ho))) as [xy Ha];
    [lia|].
  destruct (proj2 (slope_in_range seg END offset (proj1 Ho)))
    as (p1 & p0 & H1 & H0); [lia|].
  assert (p1 = xy) as -> by (cbn in Ha, H1; congruence).
  assert (np_index (reverse seg) (anchor_index START offset) = Ok xy) as Ra.
  { cbn. rewrite np_index_reverse by lia. exact Ha. }
  assert (np_index (reverse seg) (ip_index START offset) = Ok p0) as R1.
  { cbn. rewrite np_index_reverse by lia. cbn in H0.
    by replace (-1 - (1 + offset)) with (-1 - offset - 1) by lia. }
  assert (np_index (reverse seg) (ip_index START offset - 1) = Ok xy) as R0.
  { cbn. by replace (1 + offset - 1) with offset by lia. }
  exists xy, p0.
  split; [done|]. split; [done|].
  split; [apply (tangent_used_Ok seg END offset _ _ _ Ha H1 H0)|].
  split; [apply (tangent_used_Ok (reverse seg) START offset _ _ _ Ra R1 R0)|].
  pose proof (placement_plain tr bg kwargs seg END offset xy Ha) as Ptop.
  pose proof (placement_plain tr bg kwargs (reverse seg) START offset xy Ra)
    as Pbottom.
  cbn [end_keyword] in Ptop, Pbottom.
  split; [exact Ptop|]. by rewrite Ptop, Pbottom.
Qed.

Lemma top_label_is_bottom_label_of_reverse_witness :
  0 <= 1 <= Z.of_nat (length bent) - 2
  /\ exists xy p0 : Point,
       np_index bent (anchor_index END 1) = Ok xy
       /\ tangent_used (reverse bent) START 1
          = Ok ((p0.1 - xy.1)%R, (p0.2 - xy.2)%R)
       /\ placement identity (VStr "white") (reverse bent) (Some false)
                    (Some "bottom"%string) (Some 1) ∅
          = placement identity (VStr "white") bent (Some false)
                      (Some "top"%string) (Some 1) ∅.
Proof.
  split; [cbn; lia|].
  destruct (top_label_is_bottom_label_of_reverse identity (VStr "white") ∅
              bent 1)
    as (xy & p0 & Ha & _ & _ & Ht & _ & Hp); [cbn; lia|].
  exists xy, p0. exact (conj Ha (conj Ht Hp)).
Defined.

(** ** The colour and the keywords of [label_lines] *)

Lemma add_texts_inj (ts1 ts2 : list Text) (ax : Axes) :
  add_texts ts1 ax = add_texts ts2 ax -> ts1 = ts2.
Proof. unfold add_texts. intros [= H]. by apply app_inv_head in H. Qed.

Lemma default_color_lookup lines (kwargs kw : gmap string Value) :
  default_color lines kwargs = Ok kw ->
  match kwargs !! "color"%string with
  | Some c => kw = kwargs
  | None => exists c, head (get_color lines) = Some c
                      /\ kw = <["color"%string := c]> kwargs
  end.
Proof.
  unfold default_color. destruct (has_key kwargs "color") eqn:Hk.
  - intros [= <-]. apply bool_decide_eq_true in Hk as [c ->]. done.
  - apply has_key_false in Hk. rewrite Hk.
    destruct (get_color lines) as [|c cs]; [discriminate|].
    cbn. intros [= <-]. by exists c.
Qed.

(** X5: every text that [label_lines] draws has a colour: the caller's
    [color] keyword if there is one, and the first colour of the line
    collection otherwise.  When the caller gives no colour and the
    collection has none, [label_lines] raises IndexError before it looks at
    a line, even when there is no line to label. *)
Theorem label_lines_color (lines : LineCollection) (labels : list Scalar)
  (offset : Z) (align : option bool) (end_ : option string)
  (kwargs : gmap string Value) (ax : Axes) :
  (kwargs !! "color"%string = None -> get_color lines = [] ->
   label_lines lines labels offset align end_ kwargs ax
   = (ax, Raise IndexError))
  /\ (forall ts r t,
         label_lines lines labels offset align end_ kwargs ax
         = (add_texts ts ax, r) ->
         t ∈ ts ->
         exists c,
           text_kwargs t !! "color"%string = Some c
           /\ match kwargs !! "color"%string with
              | Some c' => c = c'
              | None => head (get_color lines) = Some c
              end).
Proof.
  split.
  - intros Hk Hc. rewrite label_lines_outcome. unfold default_color.
    by rewrite (proj2 (has_key_false kwargs "color") Hk), Hc.
  - intros ts r t. rewrite label_lines_outcome.
    destruct (default_color lines kwargs) as [kw|e] eqn:Hcol.
    2:{ intros H. apply (f_equal fst) in H. cbn in H.
        rewrite <- (add_texts_nil ax) in H at 1.
        apply add_texts_inj in H. subst ts. by intros ?%elem_of_nil. }
    destruct (loop_outcome _ _ _ _ _ _ _ _ _) as [ts' r'] eqn:Hloop.
    cbn. intros H. apply (f_equal fst) in H. cbn in H.
    apply add_texts_inj in H. subst ts'.
    intros [i Hi]%list_elem_of_lookup.
    destruct (loop_outcome_spec _ _ _ _ _ _ _ _ _ _ _ Hloop) as [Hpairs _].
    destruct (Hpairs i t Hi) as (seg & _ & Hs).
    apply step_outcome_Ok in Hs as (v & z & p & _ & _ & _ & _ & _ & Hp & ->).
    cbn. rewrite (placement_kwargs _ _ _ _ _ _ _ _ Hp), text_defaults_lookup.
    pose proof (default_color_lookup _ _ _ Hcol) as Hkw.
    destruct (kwargs !! "color"%string) as [c|] eqn:Hc.
    + subst kw. rewrite Hc. by exists c.
    + destruct Hkw as (c & Hhead & ->). rewrite lookup_insert_eq. by exists c.
Qed.

Lemma label_lines_color_witness :
  (∅ : gmap string Value) !! "color"%string = None
  /\ get_color {| get_segments := []; get_color := [] |} = []
  /\ label_lines {| get_segments := []; get_color := [] |} [] 0 None None ∅
                 white_axes = (white_axes, Raise IndexError).
Proof.
  split; [reflexivity|]. split; [reflexivity|].
  apply (proj1 (label_lines_color {| get_segments := []; get_color := [] |}
                  [] 0 None None ∅ white_axes)); reflexivity.
Defined.

(** X6: an [align] keyword passed to [label_lines] meets the [align=True]
    of its call of [label_line], so no text is ever drawn: without lines
    [label_lines] returns, otherwise it raises at the first line, with
    IndexError when there is no label, with the error of [int] on the first
    label, and with TypeError when that label is fine. *)
Theorem label_lines_align_keyword (lines : LineCollection)
  (labels : list Scalar) (offset : Z) (b : bool) (end_ : option string)
  (kwargs kw : gmap string Value) (ax : Axes) :
  default_color lines kwargs = Ok kw ->
  label_lines lines labels offset (Some b) end_ kwargs ax
  = match get_segments lines with
    | [] => (ax, Ok tt)
    | _ :: _ =>
        (ax, Raise match labels with
                   | [] => IndexError
                   | v :: _ => match int v with
                               | Ok _ => TypeError
                               | Raise e => e
                               end
                   end)
    end.
Proof.
  intros Hcol. rewrite label_lines_outcome, Hcol.
  destruct (get_segments lines) as [|seg segs]; cbn.
  - by rewrite add_texts_nil.
  - unfold step_outcome. cbn. rewrite (np_index_lookup labels 0).
    destruct labels as [|v vs]; cbn; [by rewrite add_texts_nil|].
    destruct (int v); cbn; by rewrite add_texts_nil.
Qed.

Lemma label_lines_align_keyword_witness :
  default_color three_lines ∅ = Ok (<["color"%string := VStr "tan"]> ∅)
  /\ label_lines three_lines [SInt 10; SInt 20; SInt 30] 0 (Some false) None
                 ∅ white_axes = (white_axes, Raise TypeError).
Proof.
  split; [reflexivity|].
  apply (label_lines_align_keyword three_lines [SInt 10; SInt 20; SInt 30] 0
           false None ∅ (<["color"%string := VStr "tan"]> ∅) white_axes).
  reflexivity.
Defined.

(** ** Negative offsets *)

(** X7: a negative offset is not refused, it counts from the other end.  At
    the bottom end an offset between -length and -2 labels the line exactly
    as the offset plus the length does.  The offset -1 labels the last
    point, on any line with at least one point, and takes as slope the
    vector from the last point to the first one. *)
Theorem bottom_negative_offset (tr : Transform) (bg : Value)
  (kwargs : gmap string Value) (seg : Segment) (align : bool) :
  (forall offset,
      - Z.of_nat (length seg) <= offset <= -2 ->
      placement tr bg seg (Some align) (Some "bottom"%string) (Some offset)
                kwargs
      = placement tr bg seg (Some align) (Some "bottom"%string)
                  (Some (offset + Z.of_nat (length seg))) kwargs)
  /\ (forall first lst : Point,
         head seg = Some first -> last seg = Some lst ->
         placement tr bg seg (Some true) (Some "bottom"%string) (Some (-1))
                   kwargs
         = Ok (lst,
               transform_angles tr
                 (degrees (atan2 (first.2 - lst.2) (first.1 - lst.1))) lst,
               text_defaults bg kwargs)).
Proof.
  split.
  - intros offset Ho. set (n := Z.of_nat (length seg)) in *.
    rewrite !placement_given, !label_location_bottom.
    rewrite (np_index_wrap seg offset) by lia. fold n.
    destruct (np_index seg (offset + n)) as [xy|]; [|done]. cbn.
    destruct align; [|done]. cbn.
    unfold screen_angle, slope_angle, slope. cbn.
    rewrite (np_index_wrap seg (1 + offset)) by lia.
    rewrite (np_index_wrap seg (1 + offset - 1)) by lia. fold n.
    replace (1 + offset + n) with (1 + (offset + n)) by lia.
    by replace (1 + offset - 1 + n) with (1 + (offset + n) - 1) by lia.
  - intros first lst Hf Hl.
    assert (np_index seg (anchor_index START (-1)) = Ok lst) as Ha
      by by apply np_index_last.
    assert (np_index seg (ip_index START (-1)) = Ok first) as H1
      by by apply np_index_head.
    assert (np_index seg (ip_index START (-1) - 1) = Ok lst) as H0
      by by apply np_index_last.
    apply (placement_align tr bg kwargs seg START (-1) _ _ _ Ha H1 H0).
Qed.

Lemma bottom_negative_offset_witness :
  - Z.of_nat (length bent) <= -3 <= -2
  /\ placement identity (VStr "white") bent (Some true) (Some "bottom"%string)
               (Some (-3)) ∅
     = placement identity (VStr "white") bent (Some true)
                 (Some "bottom"%string) (Some (-3 + Z.of_nat (length bent))) ∅.
Proof.
  split; [cbn; lia|].
  apply (proj1 (bottom_negative_offset identity (VStr "white") ∅ bent true)).
  cbn. lia.
Defined.

(** * [fhr_list] *)

Lemma range_length_nonneg (start stop step : Z) :
  step <> 0 -> 0 <= range_length start stop step.
Proof.
  intros Hs. unfold range_length.
  destruct (decide (0 < step)).
  - case_decide; [|lia].
    assert (0 <= (stop - 1 - start) / step) by (apply Z.div_pos; lia). lia.
  - case_decide; [|lia].
    assert (0 <= (start - 1 - stop) / - step) by (apply Z.div_pos; lia). lia.
Qed.

(** Below the length the elements stay before [stop], from the length on
    they would not. *)
Lemma range_length_up (start stop step k : Z) :
  0 < step -> 0 <= k ->
  k < range_length start stop step <-> start + k * step < stop.
Proof.
  intros Hs Hk. unfold range_length.
  destruct (decide (0 < step)); [|lia].
  case_decide; [|nia].
  pose proof (Z.div_mod (stop - 1 - start) step ltac:(lia)) as Hdm.
  pose proof (Z.mod_pos_bound (stop - 1 - start) step Hs) as Hr.
  split; intros; nia.
Qed.

Lemma range_length_down (start stop step k : Z) :
  step < 0 -> 0 <= k ->
  k < range_length start stop step <-> stop < start + k * step.
Proof.
  intros Hs Hk. unfold range_length.
  destruct (decide (0 < step)); [lia|].
  case_decide; [|nia].
  pose proof (Z.div_mod (start - 1 - stop) (- step) ltac:(lia)) as Hdm.
  pose proof (Z.mod_pos_bound (start - 1 - stop) (- step) ltac:(lia)) as Hr.
  split; intros; nia.
Qed.

Lemma py_range_lookup (start stop step : Z) (l : list Z) (i : nat) :
  py_range start stop step = Ok l ->
  l !! i
  = if decide (Z.of_nat i < range_length start stop step)
    then Some (start + Z.of_nat i * step) else None.
Proof.
  unfold py_range. case_decide; [discriminate|]. intros [= <-].
  rewrite list_lookup_fmap. case_decide.
  - by rewrite lookup_seqZ_lt.
  - by rewrite lookup_seqZ_ge by lia.
Qed.

Lemma fhr_list_two_three (l : list Z) :
  length l = 2%nat \/ length l = 3%nat ->
  fhr_list (ArgList l) = range_star l.
Proof.
  intros H. unfold fhr_list.
  by rewrite (bool_decide_eq_true_2 _ H).
Qed.

Lemma fhr_list_other (l : list Z) :
  length l <> 2%nat -> length l <> 3%nat -> fhr_list (ArgList l) = Ok l.
Proof.
  intros H2 H3. unfold fhr_list.
  rewrite bool_decide_eq_false_2; [done|]. by intros [?|?].
Qed.

(** X8: [fhr_list] fails in one case only: on a list of three integers
    whose third, the increment, is 0, where [range] raises ValueError.  A
    list of any other length than 2 or 3 comes back as it is, the empty one
    included, and a bare integer comes back as a list of one. *)
Theorem fhr_list_failure (args : FhrArg) :
  (forall e,
      fhr_list args = Raise e
      <-> e = ValueError /\ exists start stop, args = ArgList [start; stop; 0])
  /\ (forall l, args = ArgList l -> length l <> 2%nat -> length l <> 3%nat ->
                fhr_list args = Ok l)
  /\ (forall z, args = ArgInt z -> fhr_list args = Ok [z]).
Proof.
  split; [|split].
  - intros e. split.
    + destruct args as [l|z]; [|discriminate].
      destruct (decide (length l = 2%nat \/ length l = 3%nat)) as [H|H].
      2:{ rewrite fhr_list_other by tauto. discriminate. }
      rewrite fhr_list_two_three by done.
      destruct l as [|a [|b [|c [|d l]]]]; cbn in H; try lia; cbn;
        unfold py_range; case_decide; try discriminate; try lia.
      subst c. intros [= <-]. eauto.
    + intros [-> (start & stop & ->)]. done.
  - intros l -> H2 H3. by apply fhr_list_other.
  - by intros z ->.
Qed.

Lemma fhr_list_failure_witness :
  fhr_list (ArgList [0; 12; 3; 6; 9]) = Ok [0; 12; 3; 6; 9]
  /\ fhr_list (ArgList [0; 12; 0]) = Raise ValueError.
Proof.
  split.
  - apply (proj1 (proj2 (fhr_list_failure (ArgList [0; 12; 3; 6; 9]))));
      [reflexivity | cbn; lia | cbn; lia].
  - apply (proj1 (fhr_list_failure (ArgList [0; 12; 0]))).
    split; [reflexivity|]. exists 0, 12. reflexivity.
Defined.

(** X9: a list of two integers is read as start and stop: the hours are
    the consecutive integers from start up to stop - 1, so stop itself is
    never among them and nothing is left when stop <= start. *)
Theorem fhr_list_start_stop (start stop : Z) :
  exists l,
    fhr_list (ArgList [start; stop]) = Ok l
    /\ l = seqZ start (stop - start)
    /\ length l = Z.to_nat (stop - start)
    /\ (forall x, x ∈ l <-> start <= x < stop)
    /\ stop ∉ l.
Proof.
  assert (range_length start stop 1 = Z.max 0 (stop - start)) as Hlen.
  { unfold range_length. destruct (decide (0 < 1)); [|lia].
    case_decide; [rewrite Z.div_1_r|]; lia. }
  exists (seqZ start (stop - start)).
  assert (fhr_list (ArgList [start; stop]) = Ok (seqZ start (stop - start)))
    as Hrun.
  { rewrite fhr_list_two_three by (left; done). cbn. unfold py_range.
    destruct (decide (1 = 0)); [lia|]. f_equal.
    apply list_eq. intros i. rewrite list_lookup_fmap, Hlen.
    destruct (decide (Z.of_nat i < stop - start)).
    - rewrite !lookup_seqZ_lt by lia. cbn. f_equal. lia.
    - by rewrite !lookup_seqZ_ge by lia. }
  split; [done|]. split; [done|]. split; [apply length_seqZ|].
  split.
  - intros x. rewrite elem_of_seqZ. lia.
  - rewrite elem_of_seqZ. lia.
Qed.

(** X10: a list of three integers with a non-zero third is read as start,
    stop and increment: the i-th hour is start + i * step as long as that
    lies before stop, on the side the increment moves to.  So an hour x
    is produced exactly when it lies from start (included) to stop
    (excluded) a whole number of increments away from start; and three
    hours meant as such, like 0 6 12, give the first hour alone when the
    third is at least the distance from the first to the second. *)
Theorem fhr_list_start_stop_step (start stop step : Z) :
  step <> 0 ->
  exists l,
    fhr_list (ArgList [start; stop; step]) = Ok l
    /\ (0 < step ->
        (forall i : nat,
            l !! i = if decide (start + Z.of_nat i * step < stop)
                     then Some (start + Z.of_nat i * step) else None)
        /\ (forall x, x ∈ l <-> start <= x < stop /\ (x - start) mod step = 0)
        /\ (start < stop <= start + step -> l = [start]))
    /\ (step < 0 ->
        (forall i : nat,
            l !! i = if decide (stop < start + Z.of_nat i * step)
                     then Some (start + Z.of_nat i * step) else None)
        /\ (forall x, x ∈ l
                      <-> stop < x <= start /\ (start - x) mod (- step) = 0)).
Proof.
  intros Hs.
  destruct (py_range start stop step) as [l|] eqn:Hr;
    [|unfold py_range in Hr; case_decide; [lia|discriminate]].
  exists l. split; [by rewrite fhr_list_two_three by (right; done)|].
  pose proof (fun i => py_range_lookup _ _ _ _ i Hr) as Hlook.
  split; intros Hsign.
  - assert (forall i : nat,
               l !! i = if decide (start + Z.of_nat i * step < stop)
                        then Some (start + Z.of_nat i * step) else None) as Hi.
    { intros i. rewrite (Hlook i).
      pose proof (range_length_up start stop step (Z.of_nat i) Hsign
                    ltac:(lia)) as Hiff.
      repeat case_decide; try done; tauto. }
    split; [done|]. split.
    + intros x. rewrite list_elem_of_lookup. split.
      * intros [i Hx]. rewrite Hi in Hx. case_decide; [|discriminate].
        injection Hx as <-. split; [nia|].
        replace (start + Z.of_nat i * step - start) with (Z.of_nat i * step)
          by lia.
        apply Z.mod_mul. lia.
      * intros [Hx Hm]. apply Z.mod_divide in Hm as [k Hk]; [|lia].
        assert (0 <= k) by nia.
        exists (Z.to_nat k). rewrite Hi, Z2Nat.id by done.
        rewrite decide_True by lia. f_equal. lia.
    + intros Hone. apply list_eq. intros [|i].
      * rewrite Hi. cbn. rewrite decide_True by lia. f_equal. lia.
      * rewrite Hi. cbn. rewrite decide_False; [done|]. nia.
  - assert (forall i : nat,
               l !! i = if decide (stop < start + Z.of_nat i * step)
                        then Some (start + Z.of_nat i * step) else None) as Hi.
    { intros i. rewrite (Hlook i).
      pose proof (range_length_down start stop step (Z.of_nat i) Hsign
                    ltac:(lia)) as Hiff.
      repeat case_decide; try done; tauto. }
    split; [done|].
    intros x. rewrite list_elem_of_lookup. split.
    + intros [i Hx]. rewrite Hi in Hx. case_decide; [|discriminate].
      injection Hx as <-. split; [nia|].
      replace (start - (start + Z.of_nat i * step))
        with (Z.of_nat i * - step) by lia.
      apply Z.mod_mul. lia.
    + intros [Hx Hm]. apply Z.mod_divide in Hm as [k Hk]; [|lia].
      assert (0 <= k) by nia.
      exists (Z.to_nat k). rewrite Hi, Z2Nat.id by done.
      rewrite decide_True by nia. f_equal. nia.
Qed.

Lemma fhr_list_start_stop_step_witness :
  6 <> 0
  /\ exists l, fhr_list (ArgList [0; 24; 6]) = Ok l
               /\ (18 ∈ l <-> 0 <= 18 < 24 /\ (18 - 0) mod 6 = 0).
Proof.
  split; [lia|].
  destruct (fhr_list_start_stop_step 0 24 6) as (l & Hrun & Hup & _); [lia|].
  exists l. split; [exact Hrun|].
  destruct Hup as (_ & Hmem & _); [lia|]. exact (Hmem 18).
Defined.
(** * Unit conversions *)

Lemma Forall2_fmap_mono (f : R -> R) (P Q : R -> R -> Prop) (xs ys : list R) :
  (forall x y, P x y -> Q (f x) (f y)) ->
  Forall2 P xs ys -> Forall2 Q (f <$> xs) (f <$> ys).
Proof.
  intros Hf H. induction H as [|x y xs ys Hxy _ IH]; cbn; constructor; auto.
Qed.

(** X11: each of the seven conversions keeps the shape of the field: the
    output has as many values as the input, one for each value of the
    input.  The conversions of temperature, height, speed, pressure and
    vorticity keep the order of the values: a field that is nowhere above
    another is nowhere above it after the conversion.  The scaling of the
    vertical velocity turns the order around, and with it the sign of every
    value. *)
Theorem conversions_order (xs ys : list R) :
  Forall2 Rle xs ys ->
  (length (k_to_c xs) = length xs /\ length (k_to_f xs) = length xs
   /\ length (m_to_dm xs) = length xs /\ length (ms_to_kt xs) = length xs
   /\ length (pa_to_hpa xs) = length xs /\ length (vort_scale xs) = length xs
   /\ length (vvel_scale xs) = length xs)
  /\ Forall2 Rle (k_to_c xs) (k_to_c ys)
  /\ Forall2 Rle (k_to_f xs) (k_to_f ys)
  /\ Forall2 Rle (m_to_dm xs) (m_to_dm ys)
  /\ Forall2 Rle (ms_to_kt xs) (ms_to_kt ys)
  /\ Forall2 Rle (pa_to_hpa xs) (pa_to_hpa ys)
  /\ Forall2 Rle (vort_scale xs) (vort_scale ys)
  /\ Forall2 Rle (vvel_scale ys) (vvel_scale xs)
  /\ Forall2 (fun x v => (0 < x <-> v < 0) /\ (x < 0 <-> 0 < v))%R
             xs (vvel_scale xs).
Proof.
  intros H. split.
  { unfold k_to_c, k_to_f, m_to_dm, ms_to_kt, pa_to_hpa, vort_scale,
      vvel_scale. by rewrite !length_fmap. }
  repeat split;
    try (apply (Forall2_fmap_mono _ Rle Rle); [intros x y Hxy; lra | done]).
  - apply (Forall2_fmap_mono _ (flip Rle) Rle).
    + intros x y Hxy. unfold flip in Hxy. lra.
    + by apply Forall2_flip.
  - unfold vvel_scale. apply Forall2_fmap_r, Forall_Forall2_diag, Forall_forall.
    intros x _. repeat split; intros; lra.
Qed.

Lemma conversions_order_witness :
  Forall2 Rle [250; 273.15]%R [260; 300]%R
  /\ length (m_to_dm [250; 273.15]%R) = 2%nat
  /\ Forall2 Rle (k_to_f [250; 273.15]%R) (k_to_f [260; 300]%R).
Proof.
  assert (Forall2 Rle [250; 273.15]%R [260; 300]%R) as H
    by (repeat constructor; lra).
  split; [exact H|].
  destruct (conversions_order _ _ H) as [(_ & _ & Hlen & _) (_ & Hf & _)].
  exact (conj Hlen Hf).
Defined.

(** X12: the two conversions of temperature agree with each other: the
    Fahrenheit value is the Celsius value times 9, divided by 5, plus 32,
    value by value, and it is at or below 32 exactly where the Celsius
    value is at or below 0, that is where the input is at or below
    273.15 K. *)
Theorem k_to_f_through_k_to_c (field : list R) :
  k_to_f field = (fun c => c * 9 / 5 + 32)%R <$> k_to_c field
  /\ length (k_to_c field) = length field
  /\ forall i x,
      field !! i = Some x ->
      exists c f,
        k_to_c field !! i = Some c
        /\ k_to_f field !! i = Some f
        /\ (c <= 0 <-> x <= 273.15)%R
        /\ (f <= 32 <-> c <= 0)%R.
Proof.
  split; [|split].
  - unfold k_to_f, k_to_c. rewrite <- list_fmap_compose. done.
  - apply length_fmap.
  - intros i x Hx. unfold k_to_c, k_to_f.
    rewrite !list_lookup_fmap, Hx. cbn.
    eexists _, _. split; [done|]. split; [done|].
    repeat split; intros; lra.
Qed.

Lemma k_to_f_through_k_to_c_witness :
  [233.15; 300]%R !! 0%nat = Some 233.15%R
  /\ exists c f,
       k_to_c [233.15; 300]%R !! 0%nat = Some c
       /\ k_to_f [233.15; 300]%R !! 0%nat = Some f
       /\ (f <= 32 <-> c <= 0)%R.
Proof.
  split; [reflexivity|].
  destruct (proj2 (proj2 (k_to_f_through_k_to_c [233.15; 300]%R))
              0%nat 233.15%R) as (c & f & Hc & Hf & _ & Hm);
    [reflexivity|].
  exists c, f. exact (conj Hc (conj Hf Hm)).
Defined.

(** * [Map._get_basemap] *)

Lemma od_lookup_set (d : odict) (k k' : string) (v : PyVal) :
  od_lookup k (od_set k' v d)
  = if decide (k = k') then Some v else od_lookup k d.
Proof.
  induction d as [|[k1 v1] d IH]; cbn.
  - destruct (String.eqb_spec k k'); by case_decide.
  - destruct (String.eqb_spec k' k1) as [->|Hne]; cbn.
    + destruct (String.eqb_spec k k1); by case_decide.
    + destruct (String.eqb_spec k k1) as [->|?]; [|done].
      by rewrite decide_False.
Qed.

Lemma od_lookup_None (d : odict) (k : string) :
  od_lookup k d = None <-> k ∉ d.*1.
Proof.
  induction d as [|[k1 v1] d IH]; cbn.
  - split; [intros _; apply not_elem_of_nil|done].
  - rewrite not_elem_of_cons, <- IH.
    destruct (String.eqb_spec k k1); split; try done; tauto.
Qed.

Lemma od_lookup_update (d d' : odict) (k : string) :
  NoDup d'.*1 ->
  od_lookup k (od_update d d')
  = match od_lookup k d' with
    | Some v => Some v
    | None => od_lookup k d
    end.
Proof.
  unfold od_update. revert d.
  induction d' as [|[k1 v1] d' IH]; intros d Hnd; cbn; [done|].
  apply NoDup_cons in Hnd as [Hk1 Hnd]. rewrite IH by done.
  rewrite od_lookup_set.
  destruct (String.eqb_spec k k1) as [->|Hne].
  - rewrite decide_True by done.
    by rewrite (proj2 (od_lookup_None d' k1) Hk1).
  - by rewrite decide_False.
Qed.

Lemma od_lookup_remove (d : odict) (k k' : string) :
  od_lookup k (od_remove k' d)
  = if decide (k = k') then None else od_lookup k d.
Proof.
  unfold od_remove. induction d as [|[k1 v1] d IH].
  - cbn. by case_decide.
  - rewrite filter_cons. destruct (decide ((k1, v1).1 <> k')) as [Hne|Heq];
      cbn in *.
    + rewrite IH. destruct (String.eqb_spec k k1) as [->|?]; [|done].
      by rewrite decide_False.
    + apply dec_stable in Heq. subst k1. rewrite IH.
      case_decide; [done|]. by destruct (String.eqb_spec k k').
Qed.

Lemma od_remove_NoDup (d : odict) (k : string) :
  NoDup d.*1 -> NoDup (od_remove k d).*1.
Proof.
  unfold od_remove. induction d as [|[k1 v1] d IH]; [done|].
  rewrite filter_cons, fmap_cons. intros [Hk1 Hnd]%NoDup_cons.
  case_decide; [|by apply IH].
  rewrite fmap_cons. apply NoDup_cons. split; [|by apply IH].
  intros Hin. apply Hk1. apply list_elem_of_fmap in Hin as ([k2 v2] & -> & Hin).
  apply list_elem_of_filter in Hin as [_ Hin].
  apply list_elem_of_fmap. by exists (k2, v2).
Qed.

Ltac distinct_strings :=
  rewrite ?elem_of_cons, elem_of_nil;
  let H := fresh in intros H; repeat destruct H as [H|H]; done.

(** The run of [_get_basemap], step by step. *)
Lemma Map_get_basemap_Ok (ax : PyVal) (kwargs : odict) (out : list Printed)
  (args : odict) :
  Map_get_basemap ax kwargs = (out, Ok args) ->
  exists base,
    args = od_update base (od_remove "corners" kwargs)
    /\ out = PrintStr "BASEMAP ARGS" :: ((fun kv => PrintItem kv.1 kv.2) <$> args)
    /\ forall k,
        od_lookup k base
        = if decide (k = "ax"%string) then Some ax
          else if decide (k = "resolution"%string) then Some (PStr "l")
          else match corner_index k with
               | Some i =>
                   corner_value (default PNone (od_lookup "corners" kwargs)) i
               | None => None
               end.
Proof.
  unfold Map_get_basemap.
  set (corners := default PNone (od_lookup "corners" kwargs)). clearbody corners.
  set (base0 := [("ax"%string, ax); ("resolution"%string, PStr "l")]).
  assert (forall k, od_lookup k base0
            = if decide (k = "ax"%string) then Some ax
              else if decide (k = "resolution"%string) then Some (PStr "l")
              else None) as Hbase0.
  { intros k. cbn.
    destruct (String.eqb_spec k "ax"); [by rewrite decide_True|].
    rewrite decide_False by done.
    destruct (String.eqb_spec k "resolution"); by case_decide. }
  assert (corners = PNone \/ corners <> PNone) as [Hc|Hc]
    by (destruct corners; (by left) || (by right)).
  - rewrite Hc. intros [= <- <-]. exists base0. split; [done|]. split; [done|].
    intros k. rewrite Hbase0. repeat case_decide; try done.
    by destruct (corner_index k).
  - destruct (subscript corners 0) as [a|] eqn:H0;
      [|by destruct corners; try done; cbn; rewrite ?H0].
    destruct (subscript corners 2) as [b|] eqn:H2;
      [|by destruct corners; try done; cbn; rewrite ?H0, ?H2].
    destruct (subscript corners 1) as [c|] eqn:H1;
      [|by destruct corners; try done; cbn; rewrite ?H0, ?H2, ?H1].
    destruct (subscript corners 3) as [d|] eqn:H3;
      [|by destruct corners; try done; cbn; rewrite ?H0, ?H2, ?H1, ?H3].
    set (base := od_update base0
                   [("llcrnrlat"%string, a); ("llcrnrlon"%string, b);
                    ("urcrnrlat"%string, c); ("urcrnrlon"%string, d)]).
    assert (forall i v, subscript corners i = Ok v
                        -> corner_value corners i = Some v) as Hcv.
    { intros i v Hi. unfold corner_value. rewrite Hi. by destruct corners. }
    intros H.
    assert (out = PrintStr "BASEMAP ARGS"
                    :: ((fun kv => PrintItem kv.1 kv.2)
                          <$> od_update base (od_remove "corners" kwargs))
            /\ args = od_update base (od_remove "corners" kwargs)) as [-> ->].
    { destruct corners; try done; cbn in H; by injection H as <- <-. }
    exists base. split; [done|]. split; [done|].
    intros k. subst base. rewrite od_lookup_update.
    2:{ cbn. repeat (apply NoDup_cons; split; [distinct_strings|]).
        apply NoDup_nil_2. }
    rewrite Hbase0. unfold corner_index. cbn [od_lookup].
    destruct (String.eqb_spec k "llcrnrlat") as [->|?].
    { repeat (case_decide; try done). by rewrite (Hcv _ _ H0). }
    destruct (String.eqb_spec k "llcrnrlon") as [->|?].
    { repeat (case_decide; try done). by rewrite (Hcv _ _ H2). }
    destruct (String.eqb_spec k "urcrnrlat") as [->|?].
    { repeat (case_decide; try done). by rewrite (Hcv _ _ H1). }
    destruct (String.eqb_spec k "urcrnrlon") as [->|?].
    { repeat (case_decide; try done). by rewrite (Hcv _ _ H3). }
    by repeat (case_decide; try done).
Qed.

(** X13: what [_get_basemap] hands to [Basemap].  The key [corners] never
    gets there.  Every other keyword of the caller gets there with the
    caller's value, also one of those that [_get_basemap] sets itself.  A
    keyword the caller left out is there only as [ax], as [resolution] with
    the value 'l', or, when there are corners, as one of the four corner
    keywords: of corners [ll_lat, ur_lat, ll_lon, ur_lon], the first goes
    to [llcrnrlat], the second to [urcrnrlat], the third to [llcrnrlon] and
    the fourth to [urcrnrlon].  What is printed is the heading and then
    these arguments, one by one, in their order. *)
Theorem basemap_arguments (ax : PyVal) (kwargs : odict) (out : list Printed)
  (args : odict) :
  NoDup kwargs.*1 ->
  Map_get_basemap ax kwargs = (out, Ok args) ->
  od_lookup "corners" args = None
  /\ (forall k,
         k <> "corners"%string ->
         od_lookup k args
         = match od_lookup k kwargs with
           | Some v => Some v
           | None =>
               if decide (k = "ax"%string) then Some ax
               else if decide (k = "resolution"%string) then Some (PStr "l")
               else match corner_index k with
                    | Some i =>
                        corner_value
                          (default PNone (od_lookup "corners" kwargs)) i
                    | None => None
                    end
           end)
  /\ (forall ll_lat ur_lat ll_lon ur_lon rest,
         od_lookup "corners" kwargs
         = Some (PList (ll_lat :: ur_lat :: ll_lon :: ur_lon :: rest)) ->
         (od_lookup "llcrnrlat" kwargs = None ->
          od_lookup "llcrnrlat" args = Some (PNum ll_lat))
         /\ (od_lookup "urcrnrlat" kwargs = None ->
             od_lookup "urcrnrlat" args = Some (PNum ur_lat))
         /\ (od_lookup "llcrnrlon" kwargs = None ->
             od_lookup "llcrnrlon" args = Some (PNum ll_lon))
         /\ (od_lookup "urcrnrlon" kwargs = None ->
             od_lookup "urcrnrlon" args = Some (PNum ur_lon)))
  /\ out = PrintStr "BASEMAP ARGS" :: ((fun kv => PrintItem kv.1 kv.2) <$> args).
Proof.
  intros Hnd Hrun.
  destruct (Map_get_basemap_Ok _ _ _ _ Hrun) as (base & -> & Hout & Hbase).
  assert (forall k,
             od_lookup k (od_update base (od_remove "corners" kwargs))
             = match (if decide (k = "corners"%string) then None
                      else od_lookup k kwargs) with
               | Some v => Some v
               | None => od_lookup k base
               end) as Hargs.
  { intros k. rewrite od_lookup_update by by apply od_remove_NoDup.
    by rewrite od_lookup_remove. }
  split; [|split; [|split; [|done]]].
  - rewrite Hargs, decide_True by done. by rewrite Hbase.
  - intros k Hk. rewrite Hargs, decide_False by done. by rewrite Hbase.
  - intros a b c d rest Hcorners.
    assert (forall (i : nat) x,
               (a :: b :: c :: d :: rest) !! i = Some x ->
               corner_value (default PNone (od_lookup "corners" kwargs))
                            (Z.of_nat i) = Some (PNum x)) as Hcv.
    { intros i x Hi. rewrite Hcorners. cbn.
      by rewrite (np_index_nat _ _ _ Hi). }
    repeat split; intros Hk; rewrite Hargs, Hk, Hbase; cbn.
    + apply (Hcv 0%nat). done.
    + apply (Hcv 1%nat). done.
    + apply (Hcv 2%nat). done.
    + apply (Hcv 3%nat). done.
Qed.

Lemma basemap_arguments_witness :
  NoDup [("corners"%string, PList [21; 47; 237; 299]%R);
         ("resolution"%string, PStr "i")].*1
  /\ Map_get_basemap PAx [("corners"%string, PList [21; 47; 237; 299]%R);
                          ("resolution"%string, PStr "i")]
     = (PrintStr "BASEMAP ARGS"
          :: ((fun kv => PrintItem kv.1 kv.2)
                <$> [("ax"%string, PAx); ("resolution"%string, PStr "i");
                     ("llcrnrlat"%string, PNum 21);
                     ("llcrnrlon"%string, PNum 237);
                     ("urcrnrlat"%string, PNum 47);
                     ("urcrnrlon"%string, PNum 299)]),
        Ok [("ax"%string, PAx); ("resolution"%string, PStr "i");
            ("llcrnrlat"%string, PNum 21); ("llcrnrlon"%string, PNum 237);
            ("urcrnrlat"%string, PNum 47); ("urcrnrlon"%string, PNum 299)])
  /\ od_lookup "corners"
       [("ax"%string, PAx); ("resolution"%string, PStr "i");
        ("llcrnrlat"%string, PNum 21); ("llcrnrlon"%string, PNum 237);
        ("urcrnrlat"%string, PNum 47); ("urcrnrlon"%string, PNum 299)]
     = None.
Proof.
  assert (NoDup [("corners"%string, PList [21; 47; 237; 299]%R);
                 ("resolution"%string, PStr "i")].*1) as Hnd.
  { cbn. repeat (apply NoDup_cons; split; [distinct_strings|]).
    apply NoDup_nil_2. }
  assert (Map_get_basemap PAx [("corners"%string, PList [21; 47; 237; 299]%R);
                               ("resolution"%string, PStr "i")]
     = (PrintStr "BASEMAP ARGS"
          :: ((fun kv => PrintItem kv.1 kv.2)
                <$> [("ax"%string, PAx); ("resolution"%string, PStr "i");
                     ("llcrnrlat"%string, PNum 21);
                     ("llcrnrlon"%string, PNum 237);
                     ("urcrnrlat"%string, PNum 47);
                     ("urcrnrlon"%string, PNum 299)]),
        Ok [("ax"%string, PAx); ("resolution"%string, PStr "i");
            ("llcrnrlat"%string, PNum 21); ("llcrnrlon"%string, PNum 237);
            ("urcrnrlat"%string, PNum 47); ("urcrnrlon"%string, PNum 299)]))
    as Hrun by reflexivity.
  split; [exact Hnd|]. split; [exact Hrun|].
  exact (proj1 (basemap_arguments _ _ _ _ Hnd Hrun)).
Defined.

(** X14: corners that are a list of fewer than four numbers make
    [_get_basemap] raise IndexError, and corners that are a number make it
    raise TypeError; in both cases nothing is printed and [Basemap] is not
    called. *)
Theorem basemap_short_corners (ax : PyVal) (kwargs : odict) :
  (forall l, od_lookup "corners" kwargs = Some (PList l) ->
             (length l < 4)%nat ->
             Map_get_basemap ax kwargs = ([], Raise IndexError))
  /\ (forall r, od_lookup "corners" kwargs = Some (PNum r) ->
                Map_get_basemap ax kwargs = ([], Raise TypeError)).
Proof.
  split.
  - intros l Hc Hlen. unfold Map_get_basemap. rewrite Hc.
    destruct l as [|a [|b [|c [|d l]]]]; cbn in Hlen; try lia; reflexivity.
  - intros r Hc. unfold Map_get_basemap. by rewrite Hc.
Qed.

Lemma basemap_short_corners_witness :
  od_lookup "corners" [("corners"%string, PList [21; 47; 237]%R)]
  = Some (PList [21; 47; 237]%R)
  /\ (length [21; 47; 237]%R < 4)%nat
  /\ Map_get_basemap PAx [("corners"%string, PList [21; 47; 237]%R)]
     = ([], Raise IndexError).
Proof.
  split; [reflexivity|]. split; [cbn; lia|].
  apply (proj1 (basemap_short_corners PAx
                  [("corners"%string, PList [21; 47; 237]%R)])
           [21; 47; 237]%R); [reflexivity | cbn; lia].
Defined.

(** * [DataMap._colorbar] *)

Lemma every_nth_lookup {A : Type} (s : nat) (a : list A) :
  (1 <= s)%nat ->
  forall skip j, every_nth skip s a !! j = a !! (skip + j * s)%nat.
Proof.
  intros Hs. induction a as [|x a IH]; intros skip j; [done|].
  destruct skip as [|skip]; cbn.
  - destruct j as [|j]; [done|]. cbn. rewrite IH.
    destruct s as [|s]; [lia|]. cbn. f_equal. lia.
  - by rewrite IH.
Qed.

Lemma every_nth_length {A : Type} (s : nat) (a : list A) :
  (1 <= s)%nat ->
  length (every_nth 0 s a) = ((length a + s - 1) / s)%nat.
Proof.
  intros Hs.
  assert (forall j, (j < length (every_nth 0 s a))%nat
                    <-> (j * s < length a)%nat) as Hlt.
  { intros j. rewrite <- !lookup_lt_is_Some, every_nth_lookup by done. done. }
  pose proof (Nat.div_mod (length a + s - 1) s ltac:(lia)) as Hdm.
  pose proof (Nat.mod_upper_bound (length a + s - 1) s ltac:(lia)) as Hr.
  set (q := ((length a + s - 1) / s)%nat) in *.
  set (n := length (every_nth 0 s a)) in *.
  destruct (Nat.lt_trichotomy n q) as [Hnq|[Heq|Hnq]]; [|done|].
  - assert (n * s < length a)%nat as H%Hlt by nia. lia.
  - assert (q < n)%nat as H%Hlt by lia. nia.
Qed.

Lemma every_nth_1 {A : Type} (a : list A) : every_nth 0 1 a = a.
Proof.
  apply list_eq. intros j. rewrite every_nth_lookup by lia. f_equal. lia.
Qed.

(** Rounding to the nearest integer. *)
Lemma rint_bound (x : R) : (x - 1 / 2 <= IZR (rint x) <= x + 1 / 2)%R.
Proof.
  unfold rint. pose proof (Zfloor_bound x) as [Hl Hu].
  destruct (Rlt_dec _ _) as [H|H]; [lra|].
  destruct (Rlt_dec _ _) as [H'|H']; [rewrite plus_IZR; lra|].
  destruct (Z.even _); [|rewrite plus_IZR]; lra.
Qed.

Lemma rint_IZR (z : Z) : rint (IZR z) = z.
Proof.
  unfold rint. rewrite ZfloorZ.
  destruct (Rlt_dec _ _) as [H|H]; [done|]. lra.
Qed.

Lemma rint_le (x y : R) : (x <= y)%R -> rint x <= rint y.
Proof.
  intros Hxy.
  pose proof (Zfloor_le x y Hxy) as Hf.
  pose proof (Zfloor_bound x) as [Hxl Hxu].
  pose proof (Zfloor_bound y) as [Hyl Hyu].
  assert (Zfloor x <= rint x <= Zfloor x + 1) as Hx.
  { unfold rint. repeat destruct (Rlt_dec _ _); try lia.
    destruct (Z.even _); lia. }
  assert (Zfloor y <= rint y <= Zfloor y + 1) as Hy.
  { unfold rint. repeat destruct (Rlt_dec _ _); try lia.
    destruct (Z.even _); lia. }
  destruct (decide (Zfloor x = Zfloor y)) as [Heq|Hne]; [|lia].
  unfold rint. rewrite Heq in *. set (f := Zfloor y) in *.
  destruct (Rlt_dec (x - IZR f) (1 / 2)) as [X1|X1].
  { destruct (Rlt_dec (y - IZR f) (1 / 2)); [lia|].
    destruct (Rlt_dec (1 / 2) (y - IZR f)); [lia|].
    destruct (Z.even f); lia. }
  destruct (Rlt_dec (1 / 2) (x - IZR f)) as [X2|X2].
  { destruct (Rlt_dec (y - IZR f) (1 / 2)); [lra|].
    destruct (Rlt_dec (1 / 2) (y - IZR f)); [lia|lra]. }
  destruct (Rlt_dec (y - IZR f) (1 / 2)); [lra|].
  destruct (Rlt_dec (1 / 2) (y - IZR f)); [|lia].
  destruct (Z.even f); lia.
Qed.

Lemma around4_bound (x : R) :
  (x - 1 / 20000 <= around4 x <= x + 1 / 20000)%R.
Proof.
  unfold around4. pose proof (rint_bound (x * 10000)) as H. lra.
Qed.

Lemma around4_le (x y : R) : (x <= y)%R -> (around4 x <= around4 y)%R.
Proof.
  intros Hxy. unfold around4.
  assert (rint (x * 10000) <= rint (y * 10000)) as H%IZR_le
    by (apply rint_le; lra).
  lra.
Qed.

Lemma around4_fixed (z : Z) : around4 (IZR z / 10000) = (IZR z / 10000)%R.
Proof.
  unfold around4. replace (IZR z / 10000 * 10000)%R with (IZR z) by lra.
  by rewrite rint_IZR.
Qed.

(** The least and the greatest contour level. *)
Lemma foldl_Rmin_spec (a : list R) (x : R) :
  (foldl Rmin x a ∈ x :: a) /\ Forall (Rle (foldl Rmin x a)) (x :: a).
Proof.
  revert x. induction a as [|y a IH]; intros x; cbn.
  - split; [by apply elem_of_cons; left|].
    constructor; [cbn; lra|constructor].
  - destruct (IH (Rmin x y)) as [Hin Hall]. split.
    + apply elem_of_cons in Hin as [->|Hin].
      * unfold Rmin. destruct (Rle_dec x y); rewrite !elem_of_cons; auto.
      * rewrite !elem_of_cons. auto.
    + apply Forall_cons in Hall as [Hm Hall].
      pose proof (Rmin_l x y). pose proof (Rmin_r x y).
      constructor; [cbn in *; lra|]. constructor; [cbn in *; lra|done].
Qed.

Lemma foldl_Rmax_spec (a : list R) (x : R) :
  (foldl Rmax x a ∈ x :: a)
  /\ Forall (fun y => y <= foldl Rmax x a)%R (x :: a).
Proof.
  revert x. induction a as [|y a IH]; intros x; cbn.
  - split; [by apply elem_of_cons; left|].
    constructor; [cbn; lra|constructor].
  - destruct (IH (Rmax x y)) as [Hin Hall]. split.
    + apply elem_of_cons in Hin as [->|Hin].
      * unfold Rmax. destruct (Rle_dec x y); rewrite !elem_of_cons; auto.
      * rewrite !elem_of_cons. auto.
    + apply Forall_cons in Hall as [Hm Hall].
      pose proof (Rmax_l x y). pose proof (Rmax_r x y).
      constructor; [cbn in *; lra|]. constructor; [cbn in *; lra|done].
Qed.

Lemma np_arange_lookup (start stop step : R) (i : nat) :
  (0 < step)%R ->
  np_arange start stop step !! i
  = if Rlt_dec (start + INR i * step) stop
    then Some (start + INR i * step)%R else None.
Proof.
  intros Hs. unfold np_arange. rewrite list_lookup_fmap.
  pose proof (Zceil_bound ((stop - start) / step)) as [Hl Hu].
  set (n := Zceil ((stop - start) / step)) in *.
  assert (INR i * step < stop - start <-> INR i < (stop - start) / step)%R
    as Hdiv.
  { split; intros H.
    - apply (Rmult_lt_reg_r step); [done|]. by field_simplify; [|lra].
    - apply (Rmult_lt_compat_r step) in H; [|done].
      by field_simplify in H; [|lra]. }
  rewrite INR_IZR_INZ in *.
  destruct (Rlt_dec _ _) as [H|H].
  - assert (Z.of_nat i < n) as Hi.
    { apply lt_IZR. assert (IZR (Z.of_nat i) < (stop - start) / step)%R
        by (apply Hdiv; lra). lra. }
    by rewrite lookup_seqZ_lt.
  - assert (n <= Z.of_nat i) as Hi.
    { destruct (decide (n <= Z.of_nat i)) as [?|Hlt]; [done|].
      destruct H. assert (Z.of_nat i <= n - 1) as Hle%IZR_le by lia.
      rewrite minus_IZR in Hle.
      assert (IZR (Z.of_nat i) < (stop - start) / step)%R as Hq%Hdiv by lra.
      lra. }
    by rewrite lookup_seqZ_ge.
Qed.

Lemma foldl_Rmax_plus_1 (a : list R) (x : R) :
  foldl Rmax (x + 1)%R ((fun y => y + 1)%R <$> a) = (foldl Rmax x a + 1)%R.
Proof.
  revert x. induction a as [|y a IH]; intros x; cbn; [done|].
  rewrite <- IH. f_equal. unfold Rmax.
  destruct (Rle_dec (x + 1) (y + 1)), (Rle_dec x y); lra.
Qed.

Lemma selected_ticks_nonpositive (field : ShadedField) :
  (num_val (ticks field) <= 0)%R ->
  selected_ticks field
  = if Req_dec_T (num_val (ticks field)) 0 then Ok (clevs field)
    else match ticks field with
         | NInt z => Ok (every_nth 0 (Z.to_nat (- z)) (clevs field))
         | NFloat _ => Raise TypeError
         end.
Proof.
  intros H. unfold selected_ticks. destruct (Rlt_dec _ _); [lra|done].
Qed.

Lemma selected_ticks_stride (field : ShadedField) (s : nat) :
  (1 <= s)%nat -> ticks field = NInt (- Z.of_nat s) ->
  selected_ticks field = Ok (every_nth 0 s (clevs field)).
Proof.
  intros Hs Ht.
  assert (num_val (ticks field) < 0)%R as Hneg.
  { rewrite Ht. cbn. apply IZR_lt. lia. }
  rewrite selected_ticks_nonpositive by lra.
  destruct (Req_dec_T _ _); [lra|]. rewrite Ht.
  by replace (Z.to_nat (- - Z.of_nat s)) with s by lia.
Qed.

(** X15: with a negative integer for the ticks, -s, the colour bar is
    ticked at every s-th contour level, starting with the first: the j-th
    tick is the level of index j * s, rounded to four decimals, and there
    are as many ticks as the number of levels divided by s, rounded up.
    With -1 every level is ticked, as with 0. *)
Theorem colorbar_ticks_stride (field : ShadedField) (s : nat) :
  (1 <= s)%nat ->
  ticks field = NInt (- Z.of_nat s) ->
  exists l,
    colorbar_ticks field = Ok l
    /\ (forall j, l !! j = around4 <$> clevs field !! (j * s)%nat)
    /\ length l = ((length (clevs field) + s - 1) / s)%nat
    /\ (s = 1%nat ->
        l = around4 <$> clevs field
        /\ colorbar_ticks {| ticks := NInt 0; clevs := clevs field |} = Ok l).
Proof.
  intros Hs Ht. exists (around4 <$> every_nth 0 s (clevs field)).
  split; [|split; [|split]].
  - unfold colorbar_ticks. by rewrite (selected_ticks_stride field s).
  - intros j. by rewrite list_lookup_fmap, every_nth_lookup.
  - by rewrite length_fmap, every_nth_length.
  - intros ->. rewrite every_nth_1. split; [done|].
    unfold colorbar_ticks, selected_ticks. cbn.
    destruct (Rlt_dec 0 0); [lra|]. by destruct (Req_dec_T 0 0).
Qed.

Lemma colorbar_ticks_stride_witness :
  (1 <= 2)%nat
  /\ ticks {| ticks := NInt (-2); clevs := [1; 2; 3; 4; 5]%R |}
     = NInt (- Z.of_nat 2)
  /\ exists l,
       colorbar_ticks {| ticks := NInt (-2); clevs := [1; 2; 3; 4; 5]%R |}
       = Ok l
       /\ length l = 3%nat
       /\ l !! 2%nat = Some (around4 5).
Proof.
  split; [lia|]. split; [reflexivity|].
  destruct (colorbar_ticks_stride
              {| ticks := NInt (-2); clevs := [1; 2; 3; 4; 5]%R |} 2)
    as (l & Hrun & Hl & Hlen & _); [lia | reflexivity |].
  exists l. split; [exact Hrun|]. split; [exact Hlen|]. exact (Hl 2%nat).
Defined.

(** X16: [_colorbar] fails on the field in two cases only: with positive
    ticks and no contour level, where the minimum of an empty array is a
    ValueError, and with a negative float for the ticks, which cannot be
    the step of a slice, a TypeError whatever the levels are. *)
Theorem colorbar_ticks_failure (field : ShadedField) (e : Error) :
  colorbar_ticks field = Raise e
  <-> ((0 < num_val (ticks field))%R /\ clevs field = [] /\ e = ValueError)
      \/ (exists r, ticks field = NFloat r /\ (r < 0)%R /\ e = TypeError).
Proof.
  unfold colorbar_ticks, selected_ticks.
  destruct (Rlt_dec 0 (num_val (ticks field))) as [Hpos|Hpos].
  - destruct (clevs field) as [|x a]; cbn.
    + split.
      * intros [= <-]. left. done.
      * intros [(_ & _ & ->)|(r & Hr & Hneg & _)]; [done|].
        rewrite Hr in Hpos. cbn in Hpos. lra.
    + split; [discriminate|].
      intros [(_ & ? & _)|(r & Hr & Hneg & _)]; [done|].
      rewrite Hr in Hpos. cbn in Hpos. lra.
  - destruct (Req_dec_T (num_val (ticks field)) 0) as [Hz|Hz].
    + split; [discriminate|].
      intros [(? & _)|(r & Hr & Hneg & _)]; [done|].
      rewrite Hr in Hz. cbn in Hz. lra.
    + destruct (ticks field) as [z|r] eqn:Ht; cbn in *.
      * split; [discriminate|].
        intros [(? & _)|(r & ? & _)]; done.
      * split.
        -- intros [= <-]. right. exists r. repeat split. lra.
        -- intros [(? & _)|(r' & _ & _ & ->)]; done.
Qed.

Lemma colorbar_ticks_failure_witness :
  colorbar_ticks {| ticks := NFloat (-2); clevs := [1; 2; 3]%R |}
  = Raise TypeError.
Proof.
  apply (proj2 (colorbar_ticks_failure
                  {| ticks := NFloat (-2); clevs := [1; 2; 3]%R |} TypeError)).
  right. exists (-2)%R. repeat split. lra.
Defined.

(** X17: with positive ticks and at least one contour level, the colour
    bar is ticked from the least level on in steps of that size.  The first
    tick, the least level rounded to four decimals, is always there.  The
    i-th tick, when there is one, is the least level plus i steps, rounded
    to four decimals, and it lies less than one step beyond the greatest
    level plus 1.  And there is an i-th tick whenever the least level plus
    i + 1 steps does not pass the greatest level plus 1.  (Whether a tick
    that falls on the greatest level plus 1 is there depends on the
    rounding of a quotient and is left open.) *)
Theorem colorbar_ticks_step (field : ShadedField) (step : R) :
  num_val (ticks field) = step ->
  (0 < step)%R ->
  clevs field <> [] ->
  exists (l : list R) (lo hi : R),
    colorbar_ticks field = Ok l
    /\ lo ∈ clevs field /\ hi ∈ clevs field
    /\ Forall (fun c => lo <= c <= hi)%R (clevs field)
    /\ l !! 0%nat = Some (around4 lo)
    /\ (forall (i : nat) (t : R),
           l !! i = Some t ->
           t = around4 (lo + INR i * step)
           /\ (lo + INR i * step < hi + 1 + step)%R)
    /\ (forall i : nat,
           (lo + INR (S i) * step <= hi + 1)%R -> is_Some (l !! i)).
Proof.
  intros Hstep Hpos Hne.
  destruct (clevs field) as [|x a] eqn:Hc; [done|].
  destruct (foldl_Rmin_spec a x) as [Hlo_in Hlo].
  destruct (foldl_Rmax_spec a x) as [Hhi_in Hhi].
  set (lo := foldl Rmin x a) in *. set (hi := foldl Rmax x a) in *.
  assert (colorbar_ticks field = Ok (around4 <$> np_arange lo (hi + 1) step))
    as Hrun.
  { unfold colorbar_ticks, selected_ticks. rewrite Hstep, Hc.
    destruct (Rlt_dec 0 step); [|done]. cbn.
    by rewrite foldl_Rmax_plus_1. }
  assert (forall i : nat,
             (around4 <$> np_arange lo (hi + 1) step) !! i
             = if Rlt_dec (lo + INR i * step) (hi + 1)
               then Some (around4 (lo + INR i * step)) else None) as Hi.
  { intros i. rewrite list_lookup_fmap, np_arange_lookup by done.
    by destruct (Rlt_dec _ _). }
  assert (lo <= hi)%R as Hlohi.
  { rewrite Forall_forall in Hhi. by apply Hhi. }
  exists (around4 <$> np_arange lo (hi + 1) step), lo, hi.
  split; [done|]. split; [done|]. split; [done|]. split; [|split; [|split]].
  - rewrite Forall_forall in *. intros c Hin. split; [by apply Hlo|by apply Hhi].
  - rewrite Hi. cbn.
    replace (lo + 0 * step)%R with lo by lra.
    destruct (Rlt_dec lo (hi + 1)); [done|lra].
  - intros i t. rewrite Hi.
    destruct (Rlt_dec _ _) as [Hlt|]; [|discriminate].
    intros [= <-]. split; [done|lra].
  - intros i Hle. rewrite Hi. rewrite S_INR in Hle.
    destruct (Rlt_dec _ _) as [|Hge]; [done|]. exfalso. apply Hge. nra.
Qed.

Lemma colorbar_ticks_step_witness :
  num_val (ticks {| ticks := NInt 2; clevs := [4; 1; 6]%R |}) = 2%R
  /\ (0 < 2)%R
  /\ clevs {| ticks := NInt 2; clevs := [4; 1; 6]%R |} <> []
  /\ exists (l : list R) (lo : R),
       colorbar_ticks {| ticks := NInt 2; clevs := [4; 1; 6]%R |} = Ok l
       /\ l !! 0%nat = Some (around4 lo).
Proof.
  split; [reflexivity|]. split; [lra|]. split; [discriminate|].
  destruct (colorbar_ticks_step {| ticks := NInt 2; clevs := [4; 1; 6]%R |} 2)
    as (l & lo & hi & Hrun & _ & _ & _ & H0 & _);
    [reflexivity | lra | discriminate |].
  exists l, lo. exact (conj Hrun H0).
Defined.

(** X18: every tick is a whole number of ten-thousandths.  With ticks that
    are not positive, each tick is a contour level moved by at most
    0.00005, and the order of the levels is kept; and contour levels that
    are written with four decimals at most are ticked exactly as they
    are. *)
Theorem colorbar_ticks_rounding (field : ShadedField) (l : list R) :
  colorbar_ticks field = Ok l ->
  Forall (fun t => exists z, t = (IZR z / 10000)%R) l
  /\ ((num_val (ticks field) <= 0)%R ->
      Forall (fun t => exists c, c ∈ clevs field
                                 /\ (c - 1 / 20000 <= t <= c + 1 / 20000)%R) l)
  /\ (num_val (ticks field) = 0%R ->
      (Forall2 (fun c t => c - 1 / 20000 <= t <= c + 1 / 20000)%R
               (clevs field) l)
      /\ (forall i j ci cj ti tj,
             clevs field !! i = Some ci -> clevs field !! j = Some cj ->
             l !! i = Some ti -> l !! j = Some tj ->
             (ci <= cj)%R -> (ti <= tj)%R)
      /\ (Forall (fun c => exists z, c = (IZR z / 10000)%R) (clevs field) ->
          l = clevs field)).
Proof.
  unfold colorbar_ticks.
  destruct (selected_ticks field) as [sel|] eqn:Hsel; [|discriminate].
  intros [= <-]. split; [|split].
  - apply Forall_fmap, Forall_forall. intros x _. unfold around4. cbn. eauto.
  - intros Hle. rewrite selected_ticks_nonpositive in Hsel by done.
    assert (forall x, x ∈ sel -> x ∈ clevs field) as Hsub.
    { destruct (Req_dec_T _ _) as [|Hnz]; [by injection Hsel as <-|].
      destruct (ticks field) as [z|] eqn:Ht; [|discriminate].
      injection Hsel as <-. intros x [j Hj]%list_elem_of_lookup.
      assert (1 <= Z.to_nat (- z))%nat as Hs.
      { cbn in Hle, Hnz. assert (z <> 0) by (intros ->; lra).
        assert (z <= 0) by by apply le_IZR. lia. }
      rewrite every_nth_lookup in Hj by done.
      apply list_elem_of_lookup. eauto. }
    apply Forall_fmap, Forall_forall. intros x Hx. exists x.
    split; [by apply Hsub|]. apply around4_bound.
  - intros Hz. rewrite selected_ticks_nonpositive in Hsel by lra.
    destruct (Req_dec_T _ _); [|done]. injection Hsel as <-.
    split; [|split].
    + apply Forall2_fmap_r, Forall_Forall2_diag, Forall_forall.
      intros c _. apply around4_bound.
    + intros i j ci cj ti tj Hi Hj. rewrite !list_lookup_fmap, Hi, Hj. cbn.
      intros [= <-] [= <-]. apply around4_le.
    + intros Hall. rewrite <- (list_fmap_id (clevs field)) at 2.
      apply Forall_fmap_ext_1. eapply Forall_impl; [exact Hall|].
      intros c [z ->]. apply around4_fixed.
Qed.

Lemma colorbar_ticks_rounding_witness :
  colorbar_ticks {| ticks := NInt 0; clevs := [IZR 5 / 10000; IZR 25000 / 10000]%R |}
  = Ok (around4 <$> [IZR 5 / 10000; IZR 25000 / 10000]%R)
  /\ around4 <$> [IZR 5 / 10000; IZR 25000 / 10000]%R
     = [IZR 5 / 10000; IZR 25000 / 10000]%R.
Proof.
  assert (colorbar_ticks
            {| ticks := NInt 0;
               clevs := [IZR 5 / 10000; IZR 25000 / 10000]%R |}
          = Ok (around4 <$> [IZR 5 / 10000; IZR 25000 / 10000]%R)) as Hrun.
  { unfold colorbar_ticks, selected_ticks. cbn.
    destruct (Rlt_dec 0 0); [lra|]. by destruct (Req_dec_T 0 0). }
  split; [exact Hrun|].
  apply (proj2 (proj2 (proj2 (colorbar_ticks_rounding _ _ Hrun))
                  ltac:(reflexivity))).
  repeat constructor; eauto.
Defined.

(** * [DataMap._wind_barbs] *)

Lemma on_stride_next (s j : nat) :
  (1 <= s)%nat -> on_stride (s - 1) s j <-> on_stride 0 s (S j).
Proof.
  intros Hs. unfold on_stride. rewrite Nat.sub_0_r.
  destruct (decide (s - 1 <= j)%nat) as [Hle|Hgt].
  - replace (S j) with ((j - (s - 1)) + 1 * s)%nat by lia.
    rewrite Nat.Div0.mod_add. intuition lia.
  - assert (S j mod s = S j)%nat as E by (apply Nat.mod_small; lia).
    rewrite E. intuition lia.
Qed.

Lemma update_every_lookup {A : Type} (s : nat) (f : A -> A) (a : list A) :
  (1 <= s)%nat ->
  forall skip j,
    update_every skip s f a !! j
    = (fun x => if decide (on_stride skip s j) then f x else x) <$> a !! j.
Proof.
  intros Hs. induction a as [|x a IH]; intros skip j; [done|].
  destruct skip as [|skip]; cbn.
  - destruct j as [|j]; cbn.
    + rewrite decide_True; [done|]. unfold on_stride. cbn.
      split; [lia|]. apply Nat.Div0.mod_0_l.
    + rewrite IH. destruct (a !! j); [cbn|done].
      pose proof (on_stride_next s j Hs).
      repeat case_decide; try done; tauto.
  - destruct j as [|j]; cbn.
    + rewrite decide_False; [done|]. unfold on_stride. lia.
    + rewrite IH. destruct (a !! j); [cbn|done].
      assert (on_stride skip s j <-> on_stride (S skip) s (S j)) as Hiff.
      { unfold on_stride. cbn. intuition lia. }
      repeat case_decide; try done; tauto.
Qed.

Lemma update_every_length {A : Type} (s : nat) (f : A -> A) (a : list A) :
  forall skip, length (update_every skip s f a) = length a.
Proof.
  induction a as [|x a IH]; intros skip; [done|].
  destruct skip; cbn; by rewrite IH.
Qed.

Lemma on_stride_0 (s j : nat) : on_stride 0 s j <-> (j mod s = 0)%nat.
Proof. unfold on_stride. rewrite Nat.sub_0_r. intuition lia. Qed.

(** The mask, entry by entry. *)
Lemma barb_mask_lookup (u : list (list R)) (i j : nat) (row : list R) (x : R) :
  u !! i = Some row -> row !! j = Some x ->
  exists mrow,
    barb_mask u !! i = Some mrow
    /\ length mrow = length row
    /\ mrow !! j
       = Some (if decide ((i mod 30 = 0)%nat /\ (j mod 35 = 0)%nat)
               then 0%R else 1%R).
Proof.
  intros Hi Hj. unfold barb_mask, ones_like.
  rewrite update_every_lookup, list_lookup_fmap, Hi by lia. cbn.
  eexists. split; [done|].
  destruct (decide (on_stride 0 30 i)) as [Hs|Hs].
  - split; [by rewrite update_every_length, length_fmap|].
    rewrite update_every_lookup, list_lookup_fmap, Hj by lia. cbn.
    apply on_stride_0 in Hs. f_equal.
    destruct (decide (on_stride 0 35 j)) as [Hc|Hc].
    + apply on_stride_0 in Hc. by rewrite decide_True.
    + rewrite decide_False; [done|]. intros [_ Hc']. by apply Hc, on_stride_0.
  - split; [by rewrite length_fmap|].
    rewrite list_lookup_fmap, Hj. cbn. f_equal.
    rewrite decide_False; [done|]. intros [Hs' _]. by apply Hs, on_stride_0.
Qed.

Lemma barb_mask_shape (u : list (list R)) : shape (barb_mask u) = shape u.
Proof.
  unfold shape. apply list_eq. intros i. rewrite !list_lookup_fmap.
  unfold barb_mask, ones_like.
  rewrite update_every_lookup, list_lookup_fmap by lia.
  destruct (u !! i) as [row|]; [cbn|done]. f_equal.
  case_decide; by rewrite ?update_every_length, length_fmap.
Qed.

Lemma masked_array_lookup (c mask : list (list R)) (m : list (list (option R)))
  (i j : nat) (row mrow : list R) (x k : R) :
  masked_array c mask = Some m ->
  c !! i = Some row -> row !! j = Some x ->
  mask !! i = Some mrow -> mrow !! j = Some k ->
  exists orow,
    m !! i = Some orow
    /\ orow !! j = Some (if Req_dec_T k 0 then Some x else None).
Proof.
  unfold masked_array. case_decide; [|discriminate]. intros [= <-].
  intros Hi Hj Hmi Hmj. rewrite lookup_zip_with, Hi, Hmi. cbn.
  eexists. split; [done|]. by rewrite lookup_zip_with, Hj, Hmj.
Qed.

(** X19: the wind barbs are thinned to every 30th row and every 35th column
    of the grid, counted from the first: for wind components on one grid,
    the values handed to [barbs] at row i and column j are the two wind
    values when i is a multiple of 30 and j a multiple of 35, and are
    masked otherwise.  The barb of the first grid point is always kept. *)
Theorem wind_barbs_thinning (u v : list (list R)) :
  shape v = shape u ->
  exists mu mv,
    wind_barbs u v = Some (mu, mv)
    /\ forall i j urow vrow x y,
        u !! i = Some urow -> urow !! j = Some x ->
        v !! i = Some vrow -> vrow !! j = Some y ->
        exists murow mvrow,
          mu !! i = Some murow /\ mv !! i = Some mvrow
          /\ murow !! j
             = Some (if decide ((i mod 30 = 0)%nat /\ (j mod 35 = 0)%nat)
                     then Some x else None)
          /\ mvrow !! j
             = Some (if decide ((i mod 30 = 0)%nat /\ (j mod 35 = 0)%nat)
                     then Some y else None).
Proof.
  intros Hshape. unfold wind_barbs.
  destruct (masked_array u (barb_mask u)) as [mu|] eqn:Hmu.
  2:{ unfold masked_array in Hmu. by rewrite barb_mask_shape, decide_True in Hmu. }
  destruct (masked_array v (barb_mask u)) as [mv|] eqn:Hmv.
  2:{ unfold masked_array in Hmv.
      by rewrite barb_mask_shape, decide_True in Hmv. }
  exists mu, mv. split; [done|].
  intros i j urow vrow x y Hui Huj Hvi Hvj.
  destruct (barb_mask_lookup u i j urow x Hui Huj) as (mrow & Hm & _ & Hmj).
  destruct (masked_array_lookup _ _ _ _ _ _ _ _ _ Hmu Hui Huj Hm Hmj)
    as (murow & Hmu_i & Hmu_j).
  destruct (masked_array_lookup _ _ _ _ _ _ _ _ _ Hmv Hvi Hvj Hm Hmj)
    as (mvrow & Hmv_i & Hmv_j).
  exists murow, mvrow. split; [done|]. split; [done|].
  rewrite Hmu_j, Hmv_j.
  case_decide; destruct (Req_dec_T _ 0); try done; lra.
Qed.

Lemma wind_barbs_thinning_witness :
  shape [[3; 4]; [5; 6]]%R = shape [[1; 2]; [7; 8]]%R
  /\ exists mu mv,
       wind_barbs [[1; 2]; [7; 8]]%R [[3; 4]; [5; 6]]%R = Some (mu, mv)
       /\ exists murow, mu !! 0%nat = Some murow
                        /\ murow !! 0%nat = Some (Some 1%R).
Proof.
  split; [reflexivity|].
  destruct (wind_barbs_thinning [[1; 2]; [7; 8]]%R [[3; 4]; [5; 6]]%R)
    as (mu & mv & Hrun & Hat); [reflexivity|].
  exists mu, mv. split; [exact Hrun|].
  destruct (Hat 0%nat 0%nat [1; 2]%R [3; 4]%R 1%R 3%R)
    as (murow & _ & Hi & _ & Hj & _); try reflexivity.
  exists murow. exact (conj Hi Hj).
Defined.

(** Counting along a stride. *)
Lemma sum_update_every {A : Type} (cnt : A -> nat) (f : A -> A) (K s : nat)
  (a : list A) :
  (1 <= s)%nat ->
  Forall (fun x => cnt x = 0%nat /\ cnt (f x) = K) a ->
  forall skip,
    sum_list (cnt <$> update_every skip s f a)
    = (K * (if decide (length a <= skip)%nat then 0
            else (length a - skip + s - 1) / s))%nat.
Proof.
  intros Hs. induction a as [|x a IH]; intros Hall skip.
  { cbn. rewrite decide_True by lia. lia. }
  apply Forall_cons in Hall as [[Hx Hfx] Hall].
  destruct skip as [|skip]; cbn.
  - rewrite IH, Hfx by done.
    rewrite (decide_False (P := (S (length a) <= 0)%nat)) by lia.
    match goal with
    | |- context [(?n / s)%nat] =>
        replace (n / s)%nat with ((length a + 1 * s) / s)%nat by (f_equal; lia)
    end.
    rewrite Nat.div_add by lia.
    case_decide.
    + rewrite Nat.div_small by lia. lia.
    + replace (length a - (s - 1) + s - 1)%nat with (length a) by lia. lia.
  - rewrite IH, Hx by done. cbn.
    repeat case_decide; try lia.
Qed.

Lemma sum_masked_row (row mrow : list R) :
  length row = length mrow ->
  sum_list ((fun o : option R => match o with Some _ => 1 | None => 0 end)%nat
              <$> zip_with (fun x m => if Req_dec_T m 0 then Some x else None)
                           row mrow)
  = sum_list ((fun m => if Req_dec_T m 0 then 1 else 0)%nat <$> mrow).
Proof.
  revert mrow. induction row as [|x row IH]; intros [|m mrow] Hlen;
    try done. cbn in *. rewrite IH by lia. by destruct (Req_dec_T m 0).
Qed.

Lemma unmasked_count_mask (c mask : list (list R)) (m : list (list (option R))) :
  masked_array c mask = Some m ->
  unmasked_count m
  = sum_list ((fun mrow : list R =>
                 sum_list ((fun k => if Req_dec_T k 0 then 1 else 0)%nat
                             <$> mrow)) <$> mask).
Proof.
  unfold masked_array, unmasked_count, shape.
  case_decide as Hshape; [|discriminate]. intros [= <-].
  revert mask Hshape. induction c as [|row c IH]; intros [|mrow mask] Hshape;
    try done.
  cbn in *. injection Hshape as Hlen Hshape.
  by rewrite sum_masked_row, IH.
Qed.

(** X20: on a grid of r rows of c columns each, the number of wind barbs
    that are not masked is the number of rows divided by 30 times the
    number of columns divided by 35, both rounded up, for either wind
    component. *)
Theorem wind_barbs_count (u v : list (list R)) (c : nat)
  (mu mv : list (list (option R))) :
  Forall (fun row => length row = c) u ->
  wind_barbs u v = Some (mu, mv) ->
  unmasked_count mu = ((length u + 29) / 30 * ((c + 34) / 35))%nat
  /\ unmasked_count mv = unmasked_count mu.
Proof.
  intros Hrect. unfold wind_barbs.
  destruct (masked_array u (barb_mask u)) as [mu'|] eqn:Hmu; [|discriminate].
  destruct (masked_array v (barb_mask u)) as [mv'|] eqn:Hmv; [|discriminate].
  cbn. intros [= <- <-].
  rewrite (unmasked_count_mask _ _ _ Hmu), (unmasked_count_mask _ _ _ Hmv).
  split; [|done].
  set (zeros := fun mrow : list R =>
         sum_list ((fun k => if Req_dec_T k 0 then 1 else 0)%nat <$> mrow)).
  assert (forall row : list R, zeros ((fun _ : R => 1%R) <$> row) = 0%nat)
    as Hones.
  { intros row. unfold zeros. induction row as [|x row IHrow]; [done|].
    cbn. destruct (Req_dec_T 1 0); [lra|done]. }
  assert (forall row : list R,
             length row = c ->
             zeros (update_every 0 35 (fun _ => 0%R) ((fun _ : R => 1%R) <$> row))
             = ((c + 34) / 35)%nat) as Hrow.
  { intros row Hlen. unfold zeros.
    rewrite (sum_update_every _ _ 1 35); [|lia|].
    - rewrite length_fmap, Hlen. case_decide.
      + assert (c = 0)%nat as -> by lia. done.
      + replace (c - 0 + 35 - 1)%nat with (c + 34)%nat by lia. lia.
    - apply Forall_fmap, Forall_forall. intros x _. cbn.
      destruct (Req_dec_T 1 0); [lra|]. destruct (Req_dec_T 0 0); [done|lra]. }
  unfold barb_mask.
  rewrite (sum_update_every zeros _ ((c + 34) / 35) 30); [|lia|].
  - unfold ones_like. rewrite length_fmap. case_decide.
    + assert (length u = 0)%nat as -> by lia. done.
    + replace (length u - 0 + 30 - 1)%nat with (length u + 29)%nat by lia.
      apply Nat.mul_comm.
  - unfold ones_like. apply Forall_fmap, Forall_forall. intros row Hin. cbn.
    rewrite Forall_forall in Hrect. split; [apply Hones|].
    apply Hrow. by apply Hrect.
Qed.

Lemma wind_barbs_count_witness :
  Forall (fun row : list R => length row = 2%nat) [[1; 2]; [7; 8]]%R
  /\ exists mu mv,
       wind_barbs [[1; 2]; [7; 8]]%R [[3; 4]; [5; 6]]%R = Some (mu, mv)
       /\ unmasked_count mu = ((2 + 29) / 30 * ((2 + 34) / 35))%nat.
Proof.
  assert (Forall (fun row : list R => length row = 2%nat) [[1; 2]; [7; 8]]%R)
    as Hrect by (repeat constructor).
  split; [exact Hrect|].
  destruct (wind_barbs [[1; 2]; [7; 8]]%R [[3; 4]; [5; 6]]%R)
    as [[mu mv]|] eqn:Hrun; [|discriminate].
  exists mu, mv. split; [reflexivity|].
  exact (proj1 (wind_barbs_count _ _ 2 mu mv Hrect Hrun)).
Defined.
